(** * The conversation flow of the side-panel chat (App.tsx)

    A shallow embedding of the React component [App] of the browser
    extension: its state hooks, the submit handler [handleSend] and the three
    asynchronous helpers [composioSignIn], [generateQuestion] and
    [generateInsights], in both variants found in the repository, with the
    message listener of the background script that answers the panel.

    Conventions.
    - A JavaScript string is a [string] holding its UTF-8 bytes.
    - A state hook is a field of [State]; [setX] calls made by a handler are
      applied, in the order they were queued, when the handler returns.
    - Inside a handler the names [messages], [questionCount], [pageInfo] and
      [input] denote the values of the render in which the handler was
      created: a [setX] call does not change them.
    - An [async] helper runs up to its first [await], where it is suspended
      ([Pending]); it is resumed with the way the awaited promise settled. *)

From Stdlib Require Import String Ascii List Bool Arith Lia.
Import ListNotations.
Local Open Scope string_scope.
Local Open Scope list_scope.

(** ** String.prototype.trim *)

Module JsString.

Definition byte_is (n : nat) (a : ascii) : bool := Nat.eqb (nat_of_ascii a) n.

(** WhiteSpace and LineTerminator code points below U+0080:
    TAB, LF, VT, FF, CR, SP. *)
Definition ws1 (a : ascii) : bool :=
  let n := nat_of_ascii a in
  (Nat.leb 9 n && Nat.leb n 13) || Nat.eqb n 32.

(** U+00A0 (no-break space), two bytes in UTF-8. *)
Definition ws2 (a b : ascii) : bool := byte_is 194 a && byte_is 160 b.

(** The three-byte ones: U+1680, U+2000..U+200A, U+2028, U+2029, U+202F,
    U+205F, U+3000 and U+FEFF. *)
Definition ws3 (a b c : ascii) : bool :=
  let n := nat_of_ascii c in
  (byte_is 225 a && byte_is 154 b && byte_is 128 c)
  || (byte_is 226 a && byte_is 128 b
      && ((Nat.leb 128 n && Nat.leb n 138)
          || Nat.eqb n 168 || Nat.eqb n 169 || Nat.eqb n 175))
  || (byte_is 226 a && byte_is 129 b && byte_is 159 c)
  || (byte_is 227 a && byte_is 128 b && byte_is 128 c)
  || (byte_is 239 a && byte_is 187 b && byte_is 191 c).

Section Strip.
Variable w2 : ascii -> ascii -> bool.
Variable w3 : ascii -> ascii -> ascii -> bool.

(** Drops the white space at the head of a byte sequence. *)
Fixpoint strip (l : list ascii) : list ascii :=
  match l with
  | [] => []
  | a :: r1 =>
      if ws1 a then strip r1 else
      match r1 with
      | [] => l
      | b :: r2 =>
          if w2 a b then strip r2 else
          match r2 with
          | [] => l
          | c :: r3 => if w3 a b c then strip r3 else l
          end
      end
  end.
End Strip.

Definition trimStart (l : list ascii) : list ascii := strip ws2 ws3 l.

Definition trimEnd (l : list ascii) : list ascii :=
  rev (strip (fun a b => ws2 b a) (fun a b c => ws3 c b a) (rev l)).

Definition trim (s : string) : string :=
  string_of_list_ascii (trimEnd (trimStart (list_ascii_of_string s))).

(** Truthiness of a string: the empty string is the only falsy one. *)
Definition truthy (s : string) : bool :=
  match s with EmptyString => false | String _ _ => true end.

Section Tokens.
Variable w2 : ascii -> ascii -> bool.
Variable w3 : ascii -> ascii -> ascii -> bool.

(** One white-space code point, as its bytes. *)
Inductive Token : list ascii -> Prop :=
| Token1 a : ws1 a = true -> Token [a]
| Token2 a b : w2 a b = true -> Token [a; b]
| Token3 a b c : w3 a b c = true -> Token [a; b; c].

(** A run of white space (the empty run included). *)
Inductive Tokens : list ascii -> Prop :=
| Tokens_nil : Tokens []
| Tokens_app w l : Token w -> Tokens l -> Tokens (w ++ l).
End Tokens.

(** A text that is empty or made of white space only. *)
Definition blank (s : string) : Prop := Tokens ws2 ws3 (list_ascii_of_string s).

End JsString.

(** ** The component state and the collaborators *)

Inductive Role := user | assistant.

Record Message := { role : Role; content : string }.

Record PageInfo := { title : string; url : string }.

(** The four [useState] hooks of [App]. *)
Record State := {
  messages : list Message;
  input : string;
  questionCount : nat;
  pageInfo : option PageInfo
}.

Definition initial : State :=
  {| messages := []; input := ""; questionCount := 0; pageInfo := None |}.

Definition setMessages (updater : list Message -> list Message) (s : State) : State :=
  {| messages := updater (messages s); input := input s;
     questionCount := questionCount s; pageInfo := pageInfo s |}.

Definition setInput (v : string) (s : State) : State :=
  {| messages := messages s; input := v;
     questionCount := questionCount s; pageInfo := pageInfo s |}.

Definition setQuestionCount (n : nat) (s : State) : State :=
  {| messages := messages s; input := input s;
     questionCount := n; pageInfo := pageInfo s |}.

Definition setPageInfo (p : option PageInfo) (s : State) : State :=
  {| messages := messages s; input := input s;
     questionCount := questionCount s; pageInfo := p |}.

(** The two places where the variants of the component differ:
    [messages.length == identityPosition] and [questionCount < questionLimit]
    in [handleSend]. *)
Record Config := { identityPosition : nat; questionLimit : nat }.

(** [if (messages.length == 2)], [if (questionCount < 5)] *)
Definition part_000 : Config := {| identityPosition := 2; questionLimit := 5 |}.

(** [if (messages.length == 0)], [if (questionCount < 2)] *)
Definition part_001 : Config := {| identityPosition := 0; questionLimit := 2 |}.

(** How an awaited promise settles. *)
Inductive Settled (A : Type) := Fulfilled (a : A) | Rejected.
Arguments Fulfilled {A} a.
Arguments Rejected {A}.

(** The argument of [anthropic.messages.create]. *)
Record CreateParams := {
  model : string;
  max_tokens : nat;
  params_messages : list Message
}.

(** A block of [response.content]; [text] is read on blocks of type text only. *)
Record ContentBlock := { type : string; text : string }.

Record Response := { response_content : list ContentBlock }.

(** What [composio.toolkits.authorize] resolves to, with the way its
    [waitForConnection()] settles later on. *)
Record Connection := { redirectUrl : string; waitForConnection : Settled unit }.

Inductive Call :=
| composio_toolkits_authorize (email toolkit : string)
| anthropic_messages_create (params : CreateParams)
| connection_waitForConnection.

(** The external services, as the answers they give. *)
Record Collaborators := {
  authorize : string -> string -> Settled Connection;
  create : CreateParams -> Settled Response
}.

(** ** Prompts *)

Definition newline : string := String (ascii_of_nat 10) EmptyString.

Definition insights_system : string :=
  "You are Sherlock Holmes from the BBC show who uses these observations to think through a user's preferences and motivations for this website.".

Definition insights_instruction : string :=
  "Using the answers and questions from this interaction, make inferences and analyze the user's preferences. Use these keywords 'dietary': {
                'vegetarian', 'vegan', 'allergy', 'allergic', 'spicy', 'mild', 
                'meat', 'dairy', 'gluten', 'diet', 'dietary'
            },
            'cuisine': {
                'asian', 'mexican', 'thai', 'chinese', 'indian', 'italian', 
                'japanese', 'vietnamese', 'cuisine', 'food', 'restaurant'
            },
            'budget': {
                'cheap', 'expensive', 'budget', 'price', 'cost', 'affordable',
                '$', '$$', '$$$', 'money', 'spend'
            },
            'location': {
                'near', 'close', 'distance', 'neighborhood', 'area', 'transit',
                'walk', 'drive', 'uber', 'bart', 'muni'
            },
            'timing': {
                'time', 'when', 'available', 'reservation', 'book', 'table',
                'tonight', 'tomorrow', 'weekend', 'lunch', 'dinner', 'breakfast'
            } and output with these choices in a json format. Remove the preamble and conclusion and only output the JSON".

Definition question_system : string :=
  "You are a tool that wants to learn and infer about a user's preferences based on the website they are on".

(** [${pageInfo?.f}]: the field, or the text of [undefined]. *)
Definition optional (f : PageInfo -> string) (p : option PageInfo) : string :=
  match p with
  | Some i => f i
  | None => "undefined"
  end.

Definition question_instruction (p : option PageInfo) : string :=
  "Based on the fact that they are at " ++ optional url p
  ++ " which is a site about " ++ optional title p
  ++ " and the answers given so far, generate a question that is most useful to learn about their preferences for future uses of this website. Only output the question. Make sure that the question is answerable in maximum 3-5 words for the user. Ensure that previous questions don't overlap in subject".

Definition error_text : string := "Sorry, there was an error generating a response.".

Definition authorize_text (connection : Connection) : string :=
  "🔗 Visit the URL to authorize:" ++ newline ++ "👉 " ++ redirectUrl connection.

(** [response.content[0].type === 'text' ? response.content[0].text : 'Response received']:
    [None] when there is no first block, where reading [.type] throws. *)
Definition reply_text (response : Response) : option string :=
  match response_content response with
  | [] => None
  | block :: _ =>
      Some (if String.eqb (type block) "text" then text block else "Response received")
  end.

(** ** The asynchronous helpers *)

(** A helper suspended at its [await] of a collaborator call. The call was
    made with the values of the render the helper was created in. *)
Inductive Pending :=
| composioSignIn_await (email : string)
| generateInsights_await (params : CreateParams)
| generateQuestion_await (params : CreateParams) (questionCount : nat).

Definition call_of (k : Pending) : Call :=
  match k with
  | composioSignIn_await email => composio_toolkits_authorize email "google"
  | generateInsights_await params => anthropic_messages_create params
  | generateQuestion_await params _ => anthropic_messages_create params
  end.

(** How the promise of an [async] helper settles. [handleSend] neither awaits
    it nor attaches a handler: [threw] is an unhandled rejection. *)
Inductive Completion := returned | threw.

(** What resuming a helper does: the state after the queued updates are
    applied ([None] when an updater throws while React renders, which tears
    the component down), the calls made, and how the helper ends. *)
Record Outcome := {
  next : option State;
  invoked : list Call;
  helper : Completion
}.

Definition insights_params (s : State) : CreateParams :=
  {| model := "claude-3-haiku-20240307";
     max_tokens := 256;
     params_messages :=
       [{| role := assistant; content := insights_system |}]
       ++ messages s
       ++ [{| role := user; content := insights_instruction |}] |}.

Definition question_params (s : State) : CreateParams :=
  {| model := "claude-3-haiku-20240307";
     max_tokens := 256;
     params_messages :=
       [{| role := assistant; content := question_system |}]
       ++ messages s
       ++ [{| role := user; content := question_instruction (pageInfo s) |}] |}.

(** [composioSignIn(email)], up to [await composio.toolkits.authorize(email, 'google')]. *)
Definition composioSignIn (email : string) : Pending :=
  composioSignIn_await email.

(** ... and from there on. No [try] surrounds either [await]. *)
Definition composioSignIn_resume (r : Settled Connection) (s : State) : Outcome :=
  match r with
  | Fulfilled connection =>
      {| next := Some (setMessages
                   (fun prev => prev ++ [{| role := assistant;
                                           content := authorize_text connection |}]) s);
         invoked := [connection_waitForConnection];
         helper := match waitForConnection connection with
                   | Fulfilled _ => returned
                   | Rejected => threw
                   end |}
  | Rejected => {| next := Some s; invoked := []; helper := threw |}
  end.

(** [generateInsights()], up to [await anthropic.messages.create(...)]. *)
Definition generateInsights (s : State) : Pending :=
  generateInsights_await (insights_params s).

(** ... and from there on. No [try] surrounds the [await]. *)
Definition generateInsights_resume (r : Settled Response) (s : State) : Outcome :=
  match r with
  | Fulfilled response =>
      {| next := match reply_text response with
                 | Some t => Some (setMessages
                               (fun prev => prev ++ [{| role := assistant; content := t |}]) s)
                 | None => None
                 end;
         invoked := [];
         helper := returned |}
  | Rejected => {| next := Some s; invoked := []; helper := threw |}
  end.

(** [generateQuestion()], up to [await anthropic.messages.create(...)]. *)
Definition generateQuestion (s : State) : Pending :=
  generateQuestion_await (question_params s) (questionCount s).

(** ... and from there on: the rest of the [try] block, or the [catch]
    block. The updater handed to [setMessages] reads [response.content[0]]
    when React applies it, after the [try] block is left. *)
Definition generateQuestion_resume (questionCount : nat) (r : Settled Response)
    (s : State) : Outcome :=
  match r with
  | Fulfilled response =>
      {| next := match reply_text response with
                 | Some t =>
                     Some (setQuestionCount (questionCount + 1)
                             (setMessages
                                (fun prev => prev ++ [{| role := assistant; content := t |}]) s))
                 | None => None
                 end;
         invoked := [];
         helper := returned |}
  | Rejected =>
      {| next := Some (setMessages
                   (fun prev => prev ++ [{| role := assistant; content := error_text |}]) s);
         invoked := [];
         helper := returned |}
  end.

Definition resume (world : Collaborators) (k : Pending) (s : State) : Outcome :=
  match k with
  | composioSignIn_await email => composioSignIn_resume (authorize world email "google") s
  | generateInsights_await params => generateInsights_resume (create world params) s
  | generateQuestion_await params n => generateQuestion_resume n (create world params) s
  end.

(** ** The handlers *)

Definition handleInputChange (value : string) (s : State) : State :=
  setInput value s.

(** The callback of [sendMessage({ action: 'getPageInfo' }, ...)]; an absent
    response is [None], an absent field is the empty string (both falsy). *)
Definition getPageInfo (response : option PageInfo) (s : State) : State :=
  match response with
  | Some r =>
      if JsString.truthy (title r) && JsString.truthy (url r)
      then setMessages
             (fun prev => prev ++ [{| role := assistant;
                                     content := "Current page: " ++ title r |}])
             (setPageInfo (Some r) s)
      else s
  | None => s
  end.

(** [handleSend], run in the render whose state is [s]: the state once the
    queued updates are applied, and the helper it started. *)
Definition handleSend (cfg : Config) (s : State) : State * option Pending :=
  if negb (JsString.truthy (JsString.trim (input s))) then (s, None)
  else
    let queued :=
      setMessages (fun prev => prev ++ [{| role := user; content := input s |}]) s in
    let started :=
      if Nat.eqb (length (messages s)) (identityPosition cfg)
      then composioSignIn (JsString.trim (input s))
      else if Nat.ltb (questionCount s) (questionLimit cfg)
           then generateQuestion s
           else generateInsights s in
    (setInput "" queued, Some started).

(** ** Sessions with one action outstanding at a time *)

Inductive Path := signIn | question | insights.

Definition path_of (k : Pending) : Path :=
  match k with
  | composioSignIn_await _ => signIn
  | generateInsights_await _ => insights
  | generateQuestion_await _ _ => question
  end.

(** The path [handleSend] takes in state [s], if any. *)
Definition dispatched (cfg : Config) (s : State) : option Path :=
  option_map path_of (snd (handleSend cfg s)).

(** The collaborator calls made by [handleSend] itself. *)
Definition invocations (cfg : Config) (s : State) : list Call :=
  match snd (handleSend cfg s) with
  | Some k => [call_of k]
  | None => []
  end.

(** The user types [text] and submits; the helper started, if any, is
    resumed with the answer of [world] before anything else happens. *)
Definition submit (cfg : Config) (world : Collaborators) (text : string)
    (s : State) : Outcome :=
  let '(s1, started) := handleSend cfg (handleInputChange text s) in
  match started with
  | None => {| next := Some s1; invoked := []; helper := returned |}
  | Some k =>
      let o := resume world k s1 in
      {| next := next o; invoked := call_of k :: invoked o; helper := helper o |}
  end.

Inductive Event :=
| Submit (text : string) (world : Collaborators)
| PageInfoResponse (response : option PageInfo).

Definition step (cfg : Config) (e : Event) (s : State) : option State :=
  match e with
  | Submit text world => next (submit cfg world text s)
  | PageInfoResponse response => Some (getPageInfo response s)
  end.

Fixpoint run (cfg : Config) (events : list Event) (s : State) : option State :=
  match events with
  | [] => Some s
  | e :: rest =>
      match step cfg e s with
      | Some s' => run cfg rest s'
      | None => None
      end
  end.

(** The calls that start an action, as opposed to the wait for a
    connection that was already requested. *)
Definition is_dispatch (c : Call) : bool :=
  match c with
  | connection_waitForConnection => false
  | _ => true
  end.

(** The test [messages.length == identityPosition], had it been made on the
    transcript that holds the turn [handleSend] appends. *)
Definition identity_test_after_append (cfg : Config) (s : State) : bool :=
  Nat.eqb (length (messages (fst (handleSend cfg s)))) (identityPosition cfg).

(** [hay.includes(needle)], as a proposition and as a test. *)
Definition includes (needle hay : string) : Prop :=
  exists pre post, hay = (pre ++ needle ++ post)%string.

Fixpoint startsWith (needle hay : string) : bool :=
  match needle, hay with
  | EmptyString, _ => true
  | String a n, String b h => Ascii.eqb a b && startsWith n h
  | String _ _, EmptyString => false
  end.

Fixpoint includesb (needle hay : string) : bool :=
  startsWith needle hay
  || match hay with
     | EmptyString => false
     | String _ h => includesb needle h
     end.

(** ** Two worlds to run sessions in *)

Definition text_response (t : string) : Response :=
  {| response_content := [{| type := "text"; text := t |}] |}.

(** Every call is answered. *)
Definition services_up : Collaborators :=
  {| authorize := fun _ _ =>
       Fulfilled {| redirectUrl := "https://connect.composio.dev/link/ln_1";
                    waitForConnection := Fulfilled tt |};
     create := fun _ => Fulfilled (text_response "Do you prefer spicy food?") |}.

(** Every call fails. *)
Definition services_down : Collaborators :=
  {| authorize := fun _ _ => Rejected; create := fun _ => Rejected |}.

(** ** Counting turns *)

(** The test the page-information callback makes on its response. *)
Definition accepted (response : option PageInfo) : bool :=
  match response with
  | Some r => JsString.truthy (title r) && JsString.truthy (url r)
  | None => false
  end.

(** Two turns for each submit, one for the page information that arrived. *)
Fixpoint expected_turns (events : list Event) : nat :=
  match events with
  | [] => 0
  | Submit _ _ :: rest => 2 + expected_turns rest
  | PageInfoResponse response :: rest =>
      (if accepted response then 1 else 0) + expected_turns rest
  end.

(** Every submit of the run has text that is not blank, and its helper
    returns. *)
Fixpoint every_helper_returns (cfg : Config) (events : list Event) (s : State) : Prop :=
  match events with
  | [] => True
  | e :: rest =>
      match e with
      | Submit text world =>
          ~ JsString.blank text /\ helper (submit cfg world text s) = returned
      | PageInfoResponse _ => True
      end
      /\ match step cfg e s with
         | Some s' => every_helper_returns cfg rest s'
         | None => True
         end
  end.

(** ** Sessions with helpers in flight *)

(** Nothing in the component keeps the user from submitting while a helper
    is waiting for its answer: the state, and the helpers suspended at their
    [await], in the order they were started. *)
Record Session := { state : State; waiting : list Pending }.

Definition opening : Session := {| state := initial; waiting := [] |}.

Inductive Action :=
| Send (text : string)
| Settle (i : nat) (world : Collaborators)
| Page (response : option PageInfo).

Fixpoint remove_nth {A : Type} (i : nat) (l : list A) : list A :=
  match l, i with
  | [], _ => []
  | _ :: rest, 0 => rest
  | x :: rest, S j => x :: remove_nth j rest
  end.

Definition started_by (k : option Pending) : list Pending :=
  match k with
  | Some k => [k]
  | None => []
  end.

(** [Send]: the user types [text] and submits, in the render of the current
    state. [Settle i]: the promise awaited by the [i]-th waiting helper
    settles the way [world] answers its call, and the helper runs to its end
    ([None] when the render that follows throws). [Page]: the callback of
    the page-information request runs. *)
Definition act (cfg : Config) (a : Action) (ss : Session) : option Session :=
  match a with
  | Send text =>
      let '(s1, started) := handleSend cfg (handleInputChange text (state ss)) in
      Some {| state := s1; waiting := waiting ss ++ started_by started |}
  | Settle i world =>
      match nth_error (waiting ss) i with
      | Some k =>
          match next (resume world k (state ss)) with
          | Some s' => Some {| state := s'; waiting := remove_nth i (waiting ss) |}
          | None => None
          end
      | None => Some ss
      end
  | Page response =>
      Some {| state := getPageInfo response (state ss); waiting := waiting ss |}
  end.

Fixpoint play (cfg : Config) (actions : list Action) (ss : Session) : option Session :=
  match actions with
  | [] => Some ss
  | a :: rest =>
      match act cfg a ss with
      | Some ss' => play cfg rest ss'
      | None => None
      end
  end.

(** The paths of the helpers started while the actions are played. *)
Fixpoint started (cfg : Config) (actions : list Action) (ss : Session) : list Path :=
  match actions with
  | [] => []
  | a :: rest =>
      match a with
      | Send text =>
          match dispatched cfg (handleInputChange text (state ss)) with
          | Some p => [p]
          | None => []
          end
      | _ => []
      end
      ++ match act cfg a ss with
         | Some ss' => started cfg rest ss'
         | None => []
         end
  end.

(** The texts among the actions that [handleSend] does not ignore. *)
Fixpoint submitted (actions : list Action) : list string :=
  match actions with
  | [] => []
  | Send text :: rest =>
      if JsString.truthy (JsString.trim text) then text :: submitted rest
      else submitted rest
  | _ :: rest => submitted rest
  end.

Definition is_user (m : Message) : bool :=
  match role m with
  | user => true
  | assistant => false
  end.

Definition is_signIn (p : Path) : bool :=
  match p with
  | signIn => true
  | _ => false
  end.

(** The contents of the user turns, in order. *)
Definition userTexts (l : list Message) : list string :=
  map content (filter is_user l).

Definition assistantTurns (l : list Message) : nat :=
  length (filter (fun m => negb (is_user m)) l).

(** ** What is rendered *)

(** [disabled={!input.trim()}] on the Send button. *)
Definition sendDisabled (s : State) : bool :=
  negb (JsString.truthy (JsString.trim (input s))).

(** [messages.length === 0 && ...]: the greeting shown in place of turns. *)
Definition greetingShown (s : State) : bool :=
  Nat.eqb (length (messages s)) 0.

(** ** The background script (background.js) *)

Module Background.

(** What [chrome.tabs.query] hands over for a tab: title and address are
    absent when the extension may not read them. *)
Record Tab := { tab_title : option string; tab_url : option string }.

(** The object given to [sendResponse]. *)
Record Reply := { reply_title : option string; reply_url : option string }.

(** The [chrome.runtime.onMessage] listener, with the tabs that
    [chrome.tabs.query({ active: true, currentWindow: true })] finds: the
    response sent, if any, and whether the listener returns [true] to keep
    the channel open. *)
Definition onMessage (action : string) (tabs : list Tab) : option Reply * bool :=
  if String.eqb action "getPageInfo"
  then (match tabs with
        | tab :: _ => Some {| reply_title := tab_title tab; reply_url := tab_url tab |}
        | [] => None
        end, true)
  else (None, false).

Definition or_empty (o : option string) : string :=
  match o with
  | Some s => s
  | None => ""
  end.

(** The reply as the callback of the panel reads it: an absent field and
    the empty string are both falsy there. *)
Definition received (r : option Reply) : option PageInfo :=
  match r with
  | Some r => Some {| title := or_empty (reply_title r); url := or_empty (reply_url r) |}
  | None => None
  end.

(** The request the panel makes when it mounts, answered by the listener. *)
Definition mount (tabs : list Tab) (s : State) : State :=
  match fst (onMessage "getPageInfo" tabs) with
  | Some r => getPageInfo (received (Some r)) s
  | None => s
  end.

End Background.

(** ** What stays true while helpers are in flight *)

(** A question helper holds a count under the limit and no larger than the
    number of assistant turns; a sign-in helper holds a token that is not
    empty. *)
Definition helper_sound (cfg : Config) (s : State) (k : Pending) : Prop :=
  match k with
  | composioSignIn_await email => email <> ""%string
  | generateInsights_await _ => True
  | generateQuestion_await _ n =>
      n < questionLimit cfg /\ n <= assistantTurns (messages s)
  end.

Definition sound (cfg : Config) (ss : Session) : Prop :=
  questionCount (state ss) <= questionLimit cfg /\
  questionCount (state ss) <= assistantTurns (messages (state ss)) /\
  (forall p, pageInfo (state ss) = Some p ->
             JsString.truthy (title p) = true /\ JsString.truthy (url p) = true) /\
  Forall (helper_sound cfg (state ss)) (waiting ss).

(** A session with one action outstanding at a time, as actions: each
    submit is settled before anything else happens. *)
Fixpoint sequenced (events : list Event) : list Action :=
  match events with
  | [] => []
  | Submit text world :: rest => Send text :: Settle 0 world :: sequenced rest
  | PageInfoResponse response :: rest => Page response :: sequenced rest
  end.

(** Every call is fulfilled, the completion with no content block. *)
Definition services_silent : Collaborators :=
  {| authorize := fun _ _ =>
       Fulfilled {| redirectUrl := "https://connect.composio.dev/link/ln_1";
                    waitForConnection := Fulfilled tt |};
     create := fun _ => Fulfilled {| response_content := [] |} |}.

(** * Properties *)

(** ** Strings *)

Lemma string_app_assoc (a b c : string) :
  ((a ++ b) ++ c = a ++ b ++ c)%string.
Proof.
  induction a as [|x a IH]; simpl; [reflexivity|].
  now rewrite IH.
Qed.

Lemma string_of_list_ascii_nil l : string_of_list_ascii l = "" -> l = [].
Proof. destruct l; [reflexivity|discriminate]. Qed.

Module TrimFacts.
Import JsString.

Section StripFacts.
Variable w2 : ascii -> ascii -> bool.
Variable w3 : ascii -> ascii -> ascii -> bool.

Lemma Tokens_concat l1 l2 :
  Tokens w2 w3 l1 -> Tokens w2 w3 l2 -> Tokens w2 w3 (l1 ++ l2).
Proof.
  induction 1 as [|w l Hw Hl IH]; intros H2; [exact H2|].
  rewrite <- app_assoc. constructor; auto.
Qed.

(** [strip] removes a run of white space, and nothing else. *)
Lemma strip_split_bounded n :
  forall l, length l <= n -> exists w, Tokens w2 w3 w /\ l = w ++ strip w2 w3 l.
Proof.
  induction n as [|n IH]; intros l Hn.
  - destruct l; [|simpl in Hn; lia]. exists []. split; [constructor|reflexivity].
  - destruct l as [|a r1]; [exists []; split; [constructor|reflexivity]|].
    simpl in Hn. simpl strip.
    destruct (ws1 a) eqn:E1.
    { destruct (IH r1) as (w & Hw & Heq); [lia|].
      exists ([a] ++ w). split; [constructor; [constructor; exact E1|exact Hw]|].
      simpl. f_equal. exact Heq. }
    destruct r1 as [|b r2]; [exists []; split; [constructor|reflexivity]|].
    simpl in Hn.
    destruct (w2 a b) eqn:E2.
    { destruct (IH r2) as (w & Hw & Heq); [lia|].
      exists ([a; b] ++ w). split; [constructor; [constructor; exact E2|exact Hw]|].
      simpl. do 2 f_equal. exact Heq. }
    destruct r2 as [|c r3]; [exists []; split; [constructor|reflexivity]|].
    simpl in Hn.
    destruct (w3 a b c) eqn:E3.
    { destruct (IH r3) as (w & Hw & Heq); [lia|].
      exists ([a; b; c] ++ w). split; [constructor; [constructor; exact E3|exact Hw]|].
      simpl. do 3 f_equal. exact Heq. }
    exists []. split; [constructor|reflexivity].
Qed.

Lemma strip_split l : exists w, Tokens w2 w3 w /\ l = w ++ strip w2 w3 l.
Proof. apply (strip_split_bounded (length l)). lia. Qed.

Hypothesis w2_not_ws1 : forall a b, w2 a b = true -> ws1 a = false.
Hypothesis w3_not_ws1 : forall a b c, w3 a b c = true -> ws1 a = false.
Hypothesis w3_not_w2 : forall a b c, w3 a b c = true -> w2 a b = false.

Lemma strip_Tokens l : Tokens w2 w3 l -> strip w2 w3 l = [].
Proof.
  induction 1 as [|w l Hw Hl IH]; [reflexivity|].
  destruct Hw as [a H1|a b H2|a b c H3]; simpl.
  - rewrite H1. exact IH.
  - rewrite (w2_not_ws1 _ _ H2), H2. exact IH.
  - rewrite (w3_not_ws1 _ _ _ H3), (w3_not_w2 _ _ _ H3), H3. exact IH.
Qed.
End StripFacts.

Ltac bytes :=
  unfold ws1, ws2, ws3, byte_is in *;
  repeat match goal with
  | H : _ && _ = true |- _ => apply andb_true_iff in H; destruct H
  | H : _ || _ = true |- _ => apply orb_true_iff in H; destruct H
  | H : Nat.eqb _ _ = true |- _ => apply Nat.eqb_eq in H
  | H : Nat.leb _ _ = true |- _ => apply Nat.leb_le in H
  end.

Lemma ws2_not_ws1 a b : ws2 a b = true -> ws1 a = false.
Proof. intros H. destruct (ws1 a) eqn:E; [|reflexivity]. bytes; lia. Qed.

Lemma ws3_not_ws1 a b c : ws3 a b c = true -> ws1 a = false.
Proof. intros H. destruct (ws1 a) eqn:E; [|reflexivity]. bytes; lia. Qed.

Lemma ws3_not_ws2 a b c : ws3 a b c = true -> ws2 a b = false.
Proof. intros H. destruct (ws2 a b) eqn:E; [|reflexivity]. bytes; lia. Qed.

(** A run of white space read backwards is one read forwards. *)
Lemma Tokens_rev w :
  Tokens (fun a b => ws2 b a) (fun a b c => ws3 c b a) w -> Tokens ws2 ws3 (rev w).
Proof.
  induction 1 as [|w l Hw Hl IH]; [constructor|].
  rewrite rev_app_distr. apply Tokens_concat; [exact IH|].
  destruct Hw as [a H1|a b H2|a b c H3]; simpl.
  - apply (Tokens_app ws2 ws3 [a] []); [apply Token1; exact H1|constructor].
  - apply (Tokens_app ws2 ws3 [b; a] []); [apply Token2; exact H2|constructor].
  - apply (Tokens_app ws2 ws3 [c; b; a] []); [apply Token3; exact H3|constructor].
Qed.

Lemma trimStart_blank l : Tokens ws2 ws3 l -> trimStart l = [].
Proof.
  apply strip_Tokens;
    [exact ws2_not_ws1 | exact ws3_not_ws1 | exact ws3_not_ws2].
Qed.

(** [trim] gives the empty string on the blank texts, and on no other. *)
Lemma trim_empty_iff s : trim s = "" <-> blank s.
Proof.
  unfold trim, blank. split.
  - intros H. apply string_of_list_ascii_nil in H.
    unfold trimEnd, trimStart in H.
    destruct (strip_split ws2 ws3 (list_ascii_of_string s)) as (w & Hw & Heq).
    set (m := strip ws2 ws3 (list_ascii_of_string s)) in *.
    destruct (strip_split (fun a b => ws2 b a) (fun a b c => ws3 c b a) (rev m))
      as (v & Hv & Hrev).
    assert (Hnil : strip (fun a b => ws2 b a) (fun a b c => ws3 c b a) (rev m) = []).
    { rewrite <- (rev_involutive (strip _ _ (rev m))), H. reflexivity. }
    rewrite Hnil, app_nil_r in Hrev.
    rewrite Heq. apply Tokens_concat; [exact Hw|].
    rewrite <- (rev_involutive m), Hrev. apply Tokens_rev. exact Hv.
  - intros H. rewrite (trimStart_blank _ H). reflexivity.
Qed.

Lemma truthy_trim s : truthy (trim s) = false <-> blank s.
Proof.
  rewrite <- trim_empty_iff. destruct (trim s); simpl; split; congruence.
Qed.

End TrimFacts.

Example trim_ex1 : JsString.trim "  alice@example.com	 " = "alice@example.com".
Proof. reflexivity. Qed.

Example trim_ex2 : JsString.trim "   " = "".
Proof. reflexivity. Qed.

Example trim_ex3 : JsString.trim " a b " = "a b".
Proof. reflexivity. Qed.

Example trim_ex4 : JsString.trim " 🔗 x　" = "🔗 x".
Proof. reflexivity. Qed.

(** ** The submit handler *)

Section HandleSend.
Variable cfg : Config.

Lemma handleSend_blank s :
  JsString.blank (input s) -> handleSend cfg s = (s, None).
Proof.
  intros H. unfold handleSend.
  apply TrimFacts.truthy_trim in H. now rewrite H.
Qed.

Lemma handleSend_text s :
  ~ JsString.blank (input s) ->
  handleSend cfg s =
    (setInput ""
       (setMessages (fun prev => prev ++ [{| role := user; content := input s |}]) s),
     Some (if Nat.eqb (length (messages s)) (identityPosition cfg)
           then composioSignIn (JsString.trim (input s))
           else if Nat.ltb (questionCount s) (questionLimit cfg)
                then generateQuestion s
                else generateInsights s)).
Proof.
  intros H. unfold handleSend.
  destruct (JsString.truthy (JsString.trim (input s))) eqn:E; [reflexivity|].
  apply TrimFacts.truthy_trim in E. contradiction.
Qed.

Lemma handleSend_messages s :
  ~ JsString.blank (input s) ->
  messages (fst (handleSend cfg s)) =
    messages s ++ [{| role := user; content := input s |}].
Proof. intros H. now rewrite handleSend_text. Qed.

Lemma handleSend_questionCount s :
  questionCount (fst (handleSend cfg s)) = questionCount s.
Proof.
  unfold handleSend.
  now destruct (negb (JsString.truthy (JsString.trim (input s)))).
Qed.

Lemma handleSend_pageInfo s :
  pageInfo (fst (handleSend cfg s)) = pageInfo s.
Proof.
  unfold handleSend.
  now destruct (negb (JsString.truthy (JsString.trim (input s)))).
Qed.

(** The three cases of the dispatch, by the path taken. *)
Lemma dispatched_signIn s :
  ~ JsString.blank (input s) ->
  length (messages s) = identityPosition cfg ->
  snd (handleSend cfg s) = Some (composioSignIn_await (JsString.trim (input s))).
Proof.
  intros H E. rewrite handleSend_text by exact H. simpl.
  apply Nat.eqb_eq in E. now rewrite E.
Qed.

Lemma dispatched_question s :
  ~ JsString.blank (input s) ->
  length (messages s) <> identityPosition cfg ->
  questionCount s < questionLimit cfg ->
  snd (handleSend cfg s) =
    Some (generateQuestion_await (question_params s) (questionCount s)).
Proof.
  intros H E L. rewrite handleSend_text by exact H. simpl.
  apply Nat.eqb_neq in E. apply Nat.ltb_lt in L. now rewrite E, L.
Qed.

Lemma dispatched_insights s :
  ~ JsString.blank (input s) ->
  length (messages s) <> identityPosition cfg ->
  questionLimit cfg <= questionCount s ->
  snd (handleSend cfg s) = Some (generateInsights_await (insights_params s)).
Proof.
  intros H E L. rewrite handleSend_text by exact H. simpl.
  apply Nat.eqb_neq in E. apply Nat.ltb_ge in L. now rewrite E, L.
Qed.

Lemma resume_dispatch_free world k s :
  filter is_dispatch (invoked (resume world k s)) = [].
Proof.
  destruct k as [email|params|params n]; simpl.
  - unfold composioSignIn_resume. now destruct (authorize world email "google").
  - unfold generateInsights_resume. now destruct (create world params).
  - unfold generateQuestion_resume. now destruct (create world params).
Qed.

Lemma call_of_is_dispatch k : is_dispatch (call_of k) = true.
Proof. now destruct k. Qed.

Lemma submit_unfold world text s :
  submit cfg world text s =
    match snd (handleSend cfg (handleInputChange text s)) with
    | None => {| next := Some (fst (handleSend cfg (handleInputChange text s)));
                 invoked := []; helper := returned |}
    | Some k =>
        let o := resume world k (fst (handleSend cfg (handleInputChange text s))) in
        {| next := next o; invoked := call_of k :: invoked o; helper := helper o |}
    end.
Proof.
  unfold submit. now destruct (handleSend cfg (handleInputChange text s)) as [s1 [k|]].
Qed.
End HandleSend.

Lemma not_blank_alice : ~ JsString.blank "alice@example.com".
Proof. intros H. apply TrimFacts.trim_empty_iff in H. discriminate H. Qed.

Lemma not_blank_padded : ~ JsString.blank "  alice@example.com ".
Proof. intros H. apply TrimFacts.trim_empty_iff in H. discriminate H. Qed.

Lemma not_blank_downtown : ~ JsString.blank "downtown".
Proof. intros H. apply TrimFacts.trim_empty_iff in H. discriminate H. Qed.

Lemma blank_spaces : JsString.blank "   ".
Proof. apply TrimFacts.trim_empty_iff. reflexivity. Qed.

Lemma question_params_not_insights s s' : question_params s <> insights_params s'.
Proof. intros H. apply (f_equal params_messages) in H. simpl in H. discriminate H. Qed.

(** ** Dispatch *)

(** C1. A submit with text that is not blank makes exactly one call that
    starts an action, chosen by the first test that holds: the transcript
    of the render is at the identity position, then
    [composio.toolkits.authorize] with the text, trimmed, as the identity
    token; else [questionCount] is under the limit, then
    [anthropic.messages.create] with the question request; else
    [anthropic.messages.create] with the summary request. *)
Theorem submit_dispatches_exactly_one cfg world text s :
  ~ JsString.blank text ->
  exists c,
    filter is_dispatch (invoked (submit cfg world text s)) = [c] /\
    invocations cfg (handleInputChange text s) = [c] /\
    (length (messages s) = identityPosition cfg ->
       c = composio_toolkits_authorize (JsString.trim text) "google") /\
    (length (messages s) <> identityPosition cfg ->
     questionCount s < questionLimit cfg ->
       c = anthropic_messages_create (question_params s)) /\
    (length (messages s) <> identityPosition cfg ->
     questionLimit cfg <= questionCount s ->
       c = anthropic_messages_create (insights_params s)).
Proof.
  intros Htext.
  set (s0 := handleInputChange text s).
  assert (H0 : ~ JsString.blank (input s0)) by exact Htext.
  assert (Hsome : exists k, snd (handleSend cfg s0) = Some k).
  { rewrite (handleSend_text cfg s0 H0). eexists. reflexivity. }
  destruct Hsome as [k Hk].
  exists (call_of k). repeat split.
  - rewrite submit_unfold. fold s0. rewrite Hk. cbn [invoked filter].
    rewrite call_of_is_dispatch, resume_dispatch_free. reflexivity.
  - unfold invocations. now rewrite Hk.
  - intros E. rewrite (dispatched_signIn cfg s0 H0 E) in Hk.
    injection Hk as <-. reflexivity.
  - intros E L. rewrite (dispatched_question cfg s0 H0 E L) in Hk.
    injection Hk as <-. reflexivity.
  - intros E L. rewrite (dispatched_insights cfg s0 H0 E L) in Hk.
    injection Hk as <-. reflexivity.
Qed.

Lemma submit_dispatches_exactly_one_witness :
  exists c,
    filter is_dispatch
      (invoked (submit part_001 services_down "alice@example.com" initial)) = [c].
Proof.
  destruct (submit_dispatches_exactly_one part_001 services_down
              "alice@example.com" initial not_blank_alice) as (c & H & _).
  exists c. exact H.
Defined.

(** C2, as the code has it. The identity test reads the transcript of the
    render in which the handler was created, which does not hold the turn
    the handler appends: the sign-in path is taken exactly when the
    transcript, counted with that turn, is one longer than the identity
    position. *)
Theorem identity_test_reads_render_transcript cfg s :
  ~ JsString.blank (input s) ->
  length (messages (fst (handleSend cfg s))) = length (messages s) + 1 /\
  (dispatched cfg s = Some signIn <-> length (messages s) = identityPosition cfg) /\
  (dispatched cfg s = Some signIn <->
   length (messages (fst (handleSend cfg s))) = identityPosition cfg + 1).
Proof.
  intros H.
  assert (Hlen : length (messages (fst (handleSend cfg s))) = length (messages s) + 1).
  { rewrite handleSend_messages by exact H. rewrite length_app. reflexivity. }
  assert (Hiff : dispatched cfg s = Some signIn <->
                 length (messages s) = identityPosition cfg).
  { unfold dispatched. rewrite handleSend_text by exact H. simpl.
    destruct (Nat.eqb (length (messages s)) (identityPosition cfg)) eqn:E.
    - apply Nat.eqb_eq in E. split; [intros _; exact E|reflexivity].
    - apply Nat.eqb_neq in E.
      split; [|intros F; contradiction].
      destruct (Nat.ltb (questionCount s) (questionLimit cfg)); discriminate. }
  repeat split; try apply Hiff; try exact Hlen.
  - intros D. apply Hiff in D. lia.
  - intros D. apply Hiff. lia.
Qed.

Lemma identity_test_reads_render_transcript_witness :
  dispatched part_001 (handleInputChange "alice@example.com" initial) = Some signIn.
Proof.
  apply (identity_test_reads_render_transcript part_001
           (handleInputChange "alice@example.com" initial) not_blank_alice).
  reflexivity.
Defined.

(** C2, as stated, fails. In the second variant the first submit of a
    session signs in although the transcript that holds its turn has length
    1, not 0; in the first variant a submit that makes the transcript two
    turns long asks a question. *)
Lemma identity_test_after_append_refuted :
  (dispatched part_001 (handleInputChange "alice@example.com" initial) = Some signIn /\
   identity_test_after_append part_001
     (handleInputChange "alice@example.com" initial) = false) /\
  (let s := handleInputChange "vegetarian"
              (getPageInfo (Some {| title := "OpenTable"; url := "https://www.opentable.com/" |})
                 initial) in
   identity_test_after_append part_000 s = true /\
   dispatched part_000 s = Some question).
Proof. repeat split. Qed.

(** C7. A submit whose text is empty or white space only changes nothing
    but the input field: no turn, no call, the same [questionCount]. *)
Theorem submit_blank_is_noop cfg world text s :
  JsString.blank text ->
  exists s',
    next (submit cfg world text s) = Some s' /\
    messages s' = messages s /\
    questionCount s' = questionCount s /\
    pageInfo s' = pageInfo s /\
    input s' = text /\
    invoked (submit cfg world text s) = [] /\
    helper (submit cfg world text s) = returned.
Proof.
  intros H. exists (handleInputChange text s).
  unfold submit. rewrite (handleSend_blank cfg (handleInputChange text s) H).
  repeat split.
Qed.

Lemma submit_blank_is_noop_witness :
  exists s',
    next (submit part_001 services_down "   " initial) = Some s' /\
    messages s' = [] /\ questionCount s' = 0.
Proof.
  destruct (submit_blank_is_noop part_001 services_down
              "   " initial blank_spaces) as (s' & H & Hm & Hq & _).
  exists s'. repeat split; assumption.
Defined.

(** C10. The user turn holds the text as typed; the identity token handed
    to [composio.toolkits.authorize] is the trimmed text. *)
Theorem raw_turn_trimmed_token cfg text s :
  ~ JsString.blank text ->
  JsString.trim text <> text ->
  let s0 := handleInputChange text s in
  messages (fst (handleSend cfg s0)) = messages s ++ [{| role := user; content := text |}] /\
  (forall m, In m (messages (fst (handleSend cfg s0))) -> In m (messages s) \/
             m = {| role := user; content := text |}) /\
  (length (messages s) = identityPosition cfg ->
   invocations cfg s0 = [composio_toolkits_authorize (JsString.trim text) "google"]).
Proof.
  intros Htext _ s0.
  assert (H0 : ~ JsString.blank (input s0)) by exact Htext.
  assert (Hm : messages (fst (handleSend cfg s0)) =
               messages s ++ [{| role := user; content := text |}]).
  { rewrite (handleSend_messages cfg s0 H0). reflexivity. }
  repeat split.
  - exact Hm.
  - intros m Hin. rewrite Hm in Hin. apply in_app_or in Hin.
    destruct Hin as [Hin|[<-|[]]]; auto.
  - intros E. unfold invocations.
    rewrite (dispatched_signIn cfg s0 H0 E). reflexivity.
Qed.

Lemma raw_turn_trimmed_token_witness :
  messages (fst (handleSend part_001 (handleInputChange "  alice@example.com " initial)))
    = [{| role := user; content := "  alice@example.com " |}] /\
  invocations part_001 (handleInputChange "  alice@example.com " initial)
    = [composio_toolkits_authorize "alice@example.com" "google"].
Proof.
  destruct (raw_turn_trimmed_token part_001 "  alice@example.com " initial
              not_blank_padded) as (Hm & _ & Hc).
  - vm_compute. discriminate.
  - split; [exact Hm|]. apply Hc. reflexivity.
Defined.

(** ** Answers of the completion service *)

Lemma reply_text_first response block rest :
  response_content response = block :: rest ->
  reply_text response =
    Some (if String.eqb (type block) "text" then text block else "Response received").
Proof. intros H. unfold reply_text. now rewrite H. Qed.

(** C9. When the first block of a response is not of type text, the turn
    appended is the literal [Response received], on the question path and
    on the summary path alike. *)
Theorem non_text_block_gives_placeholder n response block rest s :
  response_content response = block :: rest ->
  type block <> "text" ->
  (exists s',
     next (generateQuestion_resume n (Fulfilled response) s) = Some s' /\
     messages s' = messages s ++ [{| role := assistant; content := "Response received" |}])
  /\
  (exists s',
     next (generateInsights_resume (Fulfilled response) s) = Some s' /\
     messages s' = messages s ++ [{| role := assistant; content := "Response received" |}]).
Proof.
  intros Hc Ht. apply String.eqb_neq in Ht.
  split; eexists; cbn [generateQuestion_resume generateInsights_resume next];
    rewrite (reply_text_first _ _ _ Hc), Ht; split; reflexivity.
Qed.

Lemma non_text_block_gives_placeholder_witness :
  exists s',
    next (generateInsights_resume
            (Fulfilled {| response_content :=
                            [{| type := "tool_use"; text := "" |}] |}) initial) = Some s' /\
    messages s' = [{| role := assistant; content := "Response received" |}].
Proof.
  destruct (non_text_block_gives_placeholder 0
              {| response_content := [{| type := "tool_use"; text := "" |}] |}
              {| type := "tool_use"; text := "" |} [] initial) as [_ H].
  - reflexivity.
  - discriminate.
  - exact H.
Defined.

(** X16. With one action outstanding at a time, on a question dispatch
    [questionCount] goes up by one when the completion service answers
    with a response that has a first block, and stays as it is when the
    call is rejected, in which case the fixed error turn is appended. *)
Theorem question_dispatch_counts cfg world text s :
  ~ JsString.blank text ->
  length (messages s) <> identityPosition cfg ->
  questionCount s < questionLimit cfg ->
  (forall response,
     create world (question_params s) = Fulfilled response ->
     response_content response <> [] ->
     exists s', next (submit cfg world text s) = Some s' /\
                questionCount s' = questionCount s + 1)
  /\
  (create world (question_params s) = Rejected ->
   exists s', next (submit cfg world text s) = Some s' /\
              questionCount s' = questionCount s /\
              messages s' = messages s ++ [{| role := user; content := text |};
                                           {| role := assistant; content := error_text |}]).
Proof.
  intros Htext E L.
  set (s0 := handleInputChange text s).
  assert (H0 : ~ JsString.blank (input s0)) by exact Htext.
  assert (Hk : snd (handleSend cfg s0) =
               Some (generateQuestion_await (question_params s) (questionCount s))).
  { exact (dispatched_question cfg s0 H0 E L). }
  assert (Hm : messages (fst (handleSend cfg s0)) =
               messages s ++ [{| role := user; content := text |}]).
  { rewrite (handleSend_messages cfg s0 H0). reflexivity. }
  split.
  - intros response Hr Hne. rewrite submit_unfold. fold s0. rewrite Hk.
    cbn [resume]. rewrite Hr. unfold generateQuestion_resume. cbn [next].
    destruct (response_content response) as [|block rest] eqn:Hc; [contradiction|].
    rewrite (reply_text_first _ _ _ Hc). eexists. split; reflexivity.
  - intros Hr. rewrite submit_unfold. fold s0. rewrite Hk.
    cbn [resume]. rewrite Hr. unfold generateQuestion_resume. cbn [next].
    eexists. split; [reflexivity|]. split.
    + cbn. apply (handleSend_questionCount cfg s0).
    + cbn [setMessages messages]. rewrite Hm, <- app_assoc. reflexivity.
Qed.

Lemma question_dispatch_counts_witness :
  exists s', next (submit part_000 services_down "vegetarian" initial) = Some s' /\
             questionCount s' = 0 /\
             messages s' = [{| role := user; content := "vegetarian" |};
                            {| role := assistant; content := error_text |}].
Proof.
  apply (question_dispatch_counts part_000 services_down "vegetarian" initial).
  - intros H. apply TrimFacts.trim_empty_iff in H. discriminate H.
  - simpl. discriminate.
  - simpl. lia.
  - reflexivity.
Defined.

(** ** Failures outside the question path *)

(** A rejected call on the sign-in path or on the summary path leaves the
    transcript with the user turn only, and the helper ends in a rejection
    that nothing handles. *)
Lemma rejection_outside_question_path cfg world text s :
  ~ JsString.blank text ->
  (length (messages s) = identityPosition cfg /\
   authorize world (JsString.trim text) "google" = Rejected)
  \/ (length (messages s) <> identityPosition cfg /\
      questionLimit cfg <= questionCount s /\
      create world (insights_params s) = Rejected) ->
  exists s', next (submit cfg world text s) = Some s' /\
             messages s' = messages s ++ [{| role := user; content := text |}] /\
             helper (submit cfg world text s) = threw.
Proof.
  intros Htext Hcase.
  set (s0 := handleInputChange text s).
  assert (H0 : ~ JsString.blank (input s0)) by exact Htext.
  assert (Hm : messages (fst (handleSend cfg s0)) =
               messages s ++ [{| role := user; content := text |}]).
  { rewrite (handleSend_messages cfg s0 H0). reflexivity. }
  rewrite submit_unfold. fold s0.
  destruct Hcase as [[E Hr]|(E & L & Hr)].
  - rewrite (dispatched_signIn cfg s0 H0 E).
    cbn [resume]. change (input s0) with text. rewrite Hr.
    unfold composioSignIn_resume. cbn [next helper].
    eexists. repeat split. exact Hm.
  - rewrite (dispatched_insights cfg s0 H0 E L).
    cbn [resume]. change (insights_params s0) with (insights_params s). rewrite Hr.
    unfold generateInsights_resume. cbn [next helper].
    eexists. repeat split. exact Hm.
Qed.

(** C3, at a failing input. In the second variant, with the services
    down, the first submit of a session (sign-in path) and a submit made
    after two questions (summary path) both leave the user turn as the last
    turn: no error turn is appended, and the rejection is left unhandled. *)
Theorem failed_sign_in_and_summary_append_no_turn :
  submit part_001 services_down "alice@example.com" initial =
    {| next := Some {| messages := [{| role := user; content := "alice@example.com" |}];
                       input := ""; questionCount := 0; pageInfo := None |};
       invoked := [composio_toolkits_authorize "alice@example.com" "google"];
       helper := threw |}
  /\
  exists s,
    run part_001 [Submit "alice@example.com" services_up;
                  Submit "vegetarian" services_up;
                  Submit "thai food" services_up] initial = Some s /\
    questionCount s = 2 /\
    submit part_001 services_down "downtown" s =
      {| next := Some {| messages := messages s ++ [{| role := user; content := "downtown" |}];
                         input := ""; questionCount := 2; pageInfo := None |};
         invoked := [anthropic_messages_create (insights_params s)];
         helper := threw |}.
Proof.
  split; [reflexivity|].
  eexists. split; [reflexivity|]. split; reflexivity.
Qed.

(** ** Sessions *)

(** What resuming a helper can change. *)
Lemma resume_effect world k s s' :
  next (resume world k s) = Some s' ->
  pageInfo s' = pageInfo s /\
  input s' = input s /\
  (exists added, messages s' = messages s ++ added /\ length added <= 1) /\
  (questionCount s' = questionCount s
   \/ exists params n, k = generateQuestion_await params n /\ questionCount s' = n + 1).
Proof.
  destruct k as [email|params|params n]; cbn [resume].
  - unfold composioSignIn_resume.
    destruct (authorize world email "google") as [connection|]; cbn [next];
      intros H; injection H as <-; repeat split; auto.
    + eexists. split; [reflexivity|]. simpl. lia.
    + exists []. rewrite app_nil_r. split; [reflexivity|]. simpl. lia.
  - unfold generateInsights_resume.
    destruct (create world params) as [response|]; cbn [next].
    + destruct (reply_text response) as [t|]; [|discriminate].
      intros H; injection H as <-; repeat split; auto.
      eexists. split; [reflexivity|]. simpl. lia.
    + intros H; injection H as <-; repeat split; auto.
      exists []. rewrite app_nil_r. split; [reflexivity|]. simpl. lia.
  - unfold generateQuestion_resume.
    destruct (create world params) as [response|]; cbn [next].
    + destruct (reply_text response) as [t|]; [|discriminate].
      intros H; injection H as <-; repeat split; auto.
      * eexists. split; [reflexivity|]. simpl. lia.
      * right. exists params, n. split; reflexivity.
    + intros H; injection H as <-; repeat split; auto.
      eexists. split; [reflexivity|]. simpl. lia.
Qed.

(** A helper that returns, with no updater throwing, has appended exactly
    one assistant turn. *)
Lemma resume_returned world k s s' :
  next (resume world k s) = Some s' ->
  helper (resume world k s) = returned ->
  exists reply, messages s' = messages s ++ [{| role := assistant; content := reply |}].
Proof.
  destruct k as [email|params|params n]; cbn [resume].
  - unfold composioSignIn_resume.
    destruct (authorize world email "google") as [connection|]; cbn [next helper];
      [|discriminate].
    intros H _; injection H as <-. eexists. reflexivity.
  - unfold generateInsights_resume.
    destruct (create world params) as [response|]; cbn [next helper]; [|discriminate].
    destruct (reply_text response) as [t|]; [|discriminate].
    intros H _; injection H as <-. eexists. reflexivity.
  - unfold generateQuestion_resume.
    destruct (create world params) as [response|]; cbn [next helper].
    + destruct (reply_text response) as [t|]; [|discriminate].
      intros H _; injection H as <-. eexists. reflexivity.
    + intros H _; injection H as <-. eexists. reflexivity.
Qed.

Section Steps.
Variable cfg : Config.

Lemma submit_effect world text s s' :
  next (submit cfg world text s) = Some s' ->
  pageInfo s' = pageInfo s /\
  (exists added, messages s' = messages s ++ added /\ length added <= 2) /\
  (questionCount s' = questionCount s
   \/ (questionCount s < questionLimit cfg /\ questionCount s' = questionCount s + 1)).
Proof.
  set (s0 := handleInputChange text s).
  rewrite submit_unfold. fold s0.
  destruct (JsString.truthy (JsString.trim text)) eqn:Hb.
  - assert (H0 : ~ JsString.blank (input s0)).
    { intros B. apply TrimFacts.truthy_trim in B. simpl in B. congruence. }
    pose proof (handleSend_messages cfg s0 H0) as Hm.
    pose proof (handleSend_questionCount cfg s0) as Hq.
    pose proof (handleSend_pageInfo cfg s0) as Hp.
    pose proof (handleSend_text cfg s0 H0) as Ht.
    apply (f_equal snd) in Ht. cbn [snd] in Ht.
    destruct (snd (handleSend cfg s0)) as [k|]; [|discriminate].
    cbn [next]. intros Hn.
    destruct (resume_effect _ _ _ _ Hn) as (Hp' & _ & (added & Ha & Hl) & Hq').
    split; [now rewrite Hp', Hp|]. split.
    + exists ({| role := user; content := text |} :: added).
      rewrite Ha, Hm. cbn [input s0 handleInputChange setInput].
      rewrite <- app_assoc. split; [reflexivity|]. simpl. lia.
    + destruct Hq' as [Hq'|(params & n & -> & Hq')].
      * left. now rewrite Hq', Hq.
      * right. injection Ht as Ht.
        change (messages s0) with (messages s) in Ht.
        change (questionCount s0) with (questionCount s) in Ht.
        destruct (Nat.eqb (length (messages s)) (identityPosition cfg));
          [discriminate|].
        destruct (Nat.ltb (questionCount s) (questionLimit cfg)) eqn:L;
          [|discriminate].
        apply Nat.ltb_lt in L. injection Ht as _ Hcnt.
        subst n. split; assumption.
  - assert (B : JsString.blank (input s0)).
    { apply TrimFacts.truthy_trim. exact Hb. }
    rewrite (handleSend_blank cfg s0 B). cbn [snd fst next].
    intros H; injection H as <-. repeat split; auto.
    exists []. rewrite app_nil_r. split; [reflexivity|]. simpl. lia.
Qed.

Lemma getPageInfo_effect response s :
  questionCount (getPageInfo response s) = questionCount s /\
  exists added, messages (getPageInfo response s) = messages s ++ added /\
                length added <= 1.
Proof.
  unfold getPageInfo. destruct response as [r|].
  - destruct (JsString.truthy (title r) && JsString.truthy (url r)); split;
      try reflexivity.
    + eexists. split; [reflexivity|]. simpl. lia.
    + exists []. rewrite app_nil_r. split; [reflexivity|]. simpl. lia.
  - split; [reflexivity|].
    exists []. rewrite app_nil_r. split; [reflexivity|]. simpl. lia.
Qed.

(** Every step appends to the transcript and never lowers the count. *)
Lemma step_effect e s s' :
  step cfg e s = Some s' ->
  (exists added, messages s' = messages s ++ added) /\
  questionCount s <= questionCount s' /\
  (questionLimit cfg <= questionCount s -> questionCount s' = questionCount s).
Proof.
  destruct e as [text world|response]; cbn [step].
  - intros H. destruct (submit_effect _ _ _ _ H) as (_ & (added & Ha & _) & Hq).
    split; [now exists added|]. destruct Hq as [->|[L ->]]; split; lia.
  - intros H; injection H as <-.
    destruct (getPageInfo_effect response s) as (Hq & added & Ha & _).
    split; [now exists added|]. rewrite Hq. split; lia.
Qed.

Lemma run_effect events : forall s s',
  run cfg events s = Some s' ->
  (exists added, messages s' = messages s ++ added) /\
  questionCount s <= questionCount s' /\
  (questionLimit cfg <= questionCount s -> questionCount s' = questionCount s).
Proof.
  induction events as [|e rest IH]; intros s s'; cbn [run].
  - intros H; injection H as <-. split; [|split; lia].
    exists []. now rewrite app_nil_r.
  - destruct (step cfg e s) as [s1|] eqn:Hs; [|discriminate].
    intros Hr. destruct (step_effect _ _ _ Hs) as ((a1 & Ha1) & Hq1 & Hl1).
    destruct (IH _ _ Hr) as ((a2 & Ha2) & Hq2 & Hl2).
    split; [|split].
    + exists (a1 ++ a2). now rewrite Ha2, Ha1, app_assoc.
    + lia.
    + intros L. rewrite Hl2, Hl1; [reflexivity|exact L|]. rewrite Hl1; assumption.
Qed.
End Steps.

(** ** Transcript length *)

Lemma submit_two_turns cfg world text s s' :
  ~ JsString.blank text ->
  next (submit cfg world text s) = Some s' ->
  helper (submit cfg world text s) = returned ->
  exists reply,
    messages s' = messages s ++ [{| role := user; content := text |};
                                 {| role := assistant; content := reply |}].
Proof.
  intros Htext.
  set (s0 := handleInputChange text s).
  assert (H0 : ~ JsString.blank (input s0)) by exact Htext.
  pose proof (handleSend_messages cfg s0 H0) as Hm.
  pose proof (handleSend_text cfg s0 H0) as Ht.
  apply (f_equal snd) in Ht. cbn [snd] in Ht.
  rewrite submit_unfold. fold s0.
  destruct (snd (handleSend cfg s0)) as [k|]; [|discriminate].
  cbn [next helper]. intros Hn Hh.
  destruct (resume_returned _ _ _ _ Hn Hh) as [reply Hr].
  exists reply. rewrite Hr, Hm, <- app_assoc. reflexivity.
Qed.

Lemma getPageInfo_length response s :
  length (messages (getPageInfo response s)) =
    length (messages s) + (if accepted response then 1 else 0).
Proof.
  unfold getPageInfo, accepted. destruct response as [r|]; [|lia].
  destruct (JsString.truthy (title r) && JsString.truthy (url r)); [|lia].
  cbn [setMessages messages]. now rewrite length_app.
Qed.

(** As long as no helper ends in a rejection, a run adds two turns for
    each submit and one for the page information. *)
Lemma returning_run_length cfg events : forall s s',
  every_helper_returns cfg events s ->
  run cfg events s = Some s' ->
  length (messages s') = length (messages s) + expected_turns events.
Proof.
  induction events as [|e rest IH]; intros s s'; cbn [every_helper_returns run expected_turns].
  - intros _ H; injection H as <-. lia.
  - intros [He Hrest]. destruct (step cfg e s) as [s1|] eqn:Hs; [|discriminate].
    intros Hr. rewrite (IH _ _ Hrest Hr).
    destruct e as [text world|response]; cbn [step] in Hs.
    + destruct He as [Htext Hh].
      destruct (submit_two_turns _ _ _ _ _ Htext Hs Hh) as [reply ->].
      rewrite length_app. simpl. lia.
    + injection Hs as <-. rewrite getPageInfo_length. lia.
Qed.

(** No operation removes, reorders or rewrites a turn. *)
Lemma run_keeps_transcript cfg events s s' :
  run cfg events s = Some s' ->
  exists added, messages s' = messages s ++ added.
Proof. intros H. apply (run_effect cfg events s s' H). Qed.

(** C6, at a failing input. In the second variant, one submit with the
    services down leaves one turn where two are expected; in the session of
    four submits whose last call fails, seven where eight are expected. *)
Theorem failed_helper_leaves_odd_transcript :
  (expected_turns [Submit "alice@example.com" services_down] = 2 /\
   exists s, run part_001 [Submit "alice@example.com" services_down] initial = Some s /\
             length (messages s) = 1)
  /\
  (expected_turns [Submit "alice@example.com" services_up;
                   Submit "vegetarian" services_up;
                   Submit "thai food" services_up;
                   Submit "downtown" services_down] = 8 /\
   exists s, run part_001 [Submit "alice@example.com" services_up;
                           Submit "vegetarian" services_up;
                           Submit "thai food" services_up;
                           Submit "downtown" services_down] initial = Some s /\
             length (messages s) = 7).
Proof.
  split; (split; [reflexivity|]); eexists; split; reflexivity.
Qed.

(** ** After the questions *)

(** X15. With one action outstanding at a time, once [questionCount] has
    reached the limit it stays where it is, and every later submit that is
    not made at the identity position takes the summary path. A transcript
    already longer than the identity position is never at that position
    again. *)
Theorem summary_path_is_final cfg events s s' :
  questionLimit cfg <= questionCount s ->
  run cfg events s = Some s' ->
  questionCount s' = questionCount s /\
  (forall text,
     ~ JsString.blank text ->
     length (messages s') <> identityPosition cfg ->
     dispatched cfg (handleInputChange text s') = Some insights /\
     invocations cfg (handleInputChange text s') =
       [anthropic_messages_create (insights_params s')]) /\
  (identityPosition cfg < length (messages s) ->
   length (messages s') <> identityPosition cfg).
Proof.
  intros L Hrun.
  destruct (run_effect cfg events s s' Hrun) as ((added & Ha) & _ & Hq).
  specialize (Hq L). split; [exact Hq|]. split.
  - intros text Htext E.
    set (s0 := handleInputChange text s').
    assert (H0 : ~ JsString.blank (input s0)) by exact Htext.
    assert (L' : questionLimit cfg <= questionCount s0).
    { change (questionCount s0) with (questionCount s'). lia. }
    pose proof (dispatched_insights cfg s0 H0 E L') as Hk.
    unfold dispatched, invocations. rewrite Hk. split; reflexivity.
  - intros Hpos. rewrite Ha, length_app. lia.
Qed.

Lemma summary_path_is_final_witness :
  exists s s',
    run part_001 [Submit "alice@example.com" services_up;
                  Submit "vegetarian" services_up;
                  Submit "thai food" services_up] initial = Some s /\
    run part_001 [Submit "downtown" services_up;
                  Submit "no peanuts" services_down] s = Some s' /\
    questionCount s' = 2 /\
    dispatched part_001 (handleInputChange "mild" s') = Some insights.
Proof.
  eexists. eexists. split; [reflexivity|]. split; [reflexivity|].
  match goal with
  | |- questionCount ?s' = _ /\ _ =>
      destruct (summary_path_is_final part_001
                  [Submit "downtown" services_up; Submit "no peanuts" services_down]
                  {| messages :=
                       [{| role := user; content := "alice@example.com" |};
                        {| role := assistant;
                           content := authorize_text
                                        {| redirectUrl := "https://connect.composio.dev/link/ln_1";
                                           waitForConnection := Fulfilled tt |} |};
                        {| role := user; content := "vegetarian" |};
                        {| role := assistant; content := "Do you prefer spicy food?" |};
                        {| role := user; content := "thai food" |};
                        {| role := assistant; content := "Do you prefer spicy food?" |}];
                     input := ""; questionCount := 2; pageInfo := None |}
                  s') as (Hq & Hd & _)
  end.
  - simpl. lia.
  - reflexivity.
  - split; [exact Hq|]. apply Hd.
    + intros H. apply TrimFacts.trim_empty_iff in H. discriminate H.
    + simpl. discriminate.
Defined.

(** ** The question request *)

Lemma startsWith_sound needle : forall hay,
  startsWith needle hay = true -> exists post, hay = (needle ++ post)%string.
Proof.
  induction needle as [|a n IH]; intros hay H.
  - exists hay. reflexivity.
  - destruct hay as [|b h]; [discriminate|]. simpl in H.
    apply andb_true_iff in H. destruct H as [Hab Hn].
    apply Ascii.eqb_eq in Hab. subst b.
    destruct (IH _ Hn) as [post ->]. exists post. reflexivity.
Qed.

Lemma includesb_sound needle hay : includesb needle hay = true -> includes needle hay.
Proof.
  induction hay as [|b h IH]; simpl; intros H; apply orb_true_iff in H.
  - destruct H as [H|H]; [|discriminate].
    destruct (startsWith_sound _ _ H) as [post Hp]. exists ""%string, post. exact Hp.
  - destruct H as [H|H].
    + destruct (startsWith_sound _ _ H) as [post Hp]. exists ""%string, post. exact Hp.
    + destruct (IH H) as (pre & post & ->). exists (String b pre), post. reflexivity.
Qed.

Lemma includes_app_r needle x hay : includes needle hay -> includes needle (x ++ hay)%string.
Proof.
  intros (pre & post & ->). exists (x ++ pre)%string, post.
  now rewrite string_app_assoc.
Qed.

Lemma includes_app_l needle hay x : includes needle hay -> includes needle (hay ++ x)%string.
Proof.
  intros (pre & post & ->). exists pre, (post ++ x)%string.
  now rewrite !string_app_assoc.
Qed.

Lemma question_instruction_page p :
  includes ("they are at " ++ optional url p ++ " which is a site about " ++ optional title p)
           (question_instruction p).
Proof.
  exists "Based on the fact that "%string.
  eexists. unfold question_instruction. cbn [append].
  rewrite !string_app_assoc. reflexivity.
Qed.

Lemma question_instruction_constraints p :
  includes "Make sure that the question is answerable in maximum 3-5 words for the user."
           (question_instruction p) /\
  includes "Ensure that previous questions don't overlap in subject"
           (question_instruction p).
Proof.
  unfold question_instruction.
  split; do 4 apply includes_app_r; apply includesb_sound; vm_compute; reflexivity.
Qed.

(** X17. The question request holds, between the system turn and the
    instruction, the transcript of the render in which the handler was
    created; the turn being submitted is appended to the state but is not
    part of the request. The instruction names the address and
    the title of the page when the page information is there, the text
    [undefined] in their place when it is not, and states both constraints. *)
Theorem question_request_contents cfg s :
  ~ JsString.blank (input s) ->
  length (messages s) <> identityPosition cfg ->
  questionCount s < questionLimit cfg ->
  exists params instruction,
    invocations cfg s = [anthropic_messages_create params] /\
    params_messages params =
      {| role := assistant; content := question_system |}
      :: messages s ++ [{| role := user; content := instruction |}] /\
    messages (fst (handleSend cfg s)) =
      messages s ++ [{| role := user; content := input s |}] /\
    (forall p, pageInfo s = Some p ->
       includes ("they are at " ++ url p ++ " which is a site about " ++ title p)
                instruction) /\
    (pageInfo s = None ->
       includes "they are at undefined which is a site about undefined" instruction) /\
    includes "Make sure that the question is answerable in maximum 3-5 words for the user."
             instruction /\
    includes "Ensure that previous questions don't overlap in subject" instruction.
Proof.
  intros H0 E L.
  exists (question_params s), (question_instruction (pageInfo s)).
  split; [|split; [|split; [|split; [|split]]]].
  - unfold invocations. now rewrite (dispatched_question cfg s H0 E L).
  - reflexivity.
  - exact (handleSend_messages cfg s H0).
  - intros p Hp. rewrite Hp. exact (question_instruction_page (Some p)).
  - intros Hp. rewrite Hp. exact (question_instruction_page None).
  - apply question_instruction_constraints.
Qed.

Lemma question_request_contents_witness :
  exists params instruction,
    invocations part_000 (handleInputChange "vegetarian" initial)
      = [anthropic_messages_create params] /\
    params_messages params =
      [{| role := assistant; content := question_system |};
       {| role := user; content := instruction |}].
Proof.
  destruct (question_request_contents part_000 (handleInputChange "vegetarian" initial))
    as (params & instruction & Hi & Hp & _).
  - intros H. apply TrimFacts.trim_empty_iff in H. discriminate H.
  - simpl. discriminate.
  - simpl. lia.
  - exists params, instruction. split; [exact Hi|exact Hp].
Defined.

(** C8, at a failing input. In the second variant, after the sign-in and
    one question, the answer [thai food] is in the transcript once
    [handleSend] is done, yet the question request made by that same submit
    does not hold it. *)
Lemma question_request_misses_submitted_turn :
  exists s params n,
    run part_001 [Submit "alice@example.com" services_up;
                  Submit "vegetarian" services_up] initial = Some s /\
    snd (handleSend part_001 (handleInputChange "thai food" s))
      = Some (generateQuestion_await params n) /\
    In {| role := user; content := "thai food" |}
       (messages (fst (handleSend part_001 (handleInputChange "thai food" s)))) /\
    ~ In {| role := user; content := "thai food" |} (params_messages params).
Proof.
  eexists. eexists. eexists.
  split; [reflexivity|]. split; [reflexivity|]. split.
  - vm_compute. do 4 right. left. reflexivity.
  - vm_compute. intuition discriminate.
Qed.

(** ** Scenarios *)

(** The session of the second variant: sign-in, two questions, a summary. *)
Example four_submits :
  exists s1 s2 s3 s4,
    next (submit part_001 services_up "alice@example.com" initial) = Some s1 /\
    invocations part_001 (handleInputChange "alice@example.com" initial)
      = [composio_toolkits_authorize "alice@example.com" "google"] /\
    next (submit part_001 services_up "vegetarian" s1) = Some s2 /\
    dispatched part_001 (handleInputChange "vegetarian" s1) = Some question /\
    questionCount s2 = 1 /\
    next (submit part_001 services_up "thai food" s2) = Some s3 /\
    dispatched part_001 (handleInputChange "thai food" s2) = Some question /\
    questionCount s3 = 2 /\
    next (submit part_001 services_up "downtown" s3) = Some s4 /\
    dispatched part_001 (handleInputChange "downtown" s3) = Some insights /\
    questionCount s4 = 2 /\
    length (messages s4) = 8.
Proof.
  do 4 eexists. repeat (split; [reflexivity|]). reflexivity.
Qed.

(** In the first variant the page information, when it comes before the
    first submit, keeps the transcript off the identity position for good. *)
Example page_information_first :
  exists s,
    run part_000 [PageInfoResponse (Some {| title := "OpenTable";
                                            url := "https://www.opentable.com/" |});
                  Submit "vegetarian" services_up;
                  Submit "thai food" services_up] initial = Some s /\
    length (messages s) = 5 /\
    questionCount s = 2.
Proof. eexists. repeat split. Qed.

(** Outside the sessions above: a second submit made while the question
    helper of the first is still waiting. Both helpers hold the count of
    their own render, so two answered questions leave the count at one. *)
Remark overlapping_questions_count_once :
  let '(s1, k1) := handleSend part_000 (handleInputChange "vegetarian" initial) in
  let '(s2, k2) := handleSend part_000 (handleInputChange "thai food" s1) in
  match k1, k2 with
  | Some k1, Some k2 =>
      match next (resume services_up k1 s2) with
      | Some s3 =>
          match next (resume services_up k2 s3) with
          | Some s4 =>
              path_of k1 = question /\ path_of k2 = question /\
              length (messages s4) = 4 /\ questionCount s4 = 1
          | None => False
          end
      | None => False
      end
  | _, _ => False
  end.
Proof. vm_compute. repeat split. Qed.

(** A response without a content block: the updater throws while React
    renders, on either path. *)
Remark empty_content_tears_down n s :
  next (generateQuestion_resume n (Fulfilled {| response_content := [] |}) s) = None /\
  next (generateInsights_resume (Fulfilled {| response_content := [] |}) s) = None.
Proof. split; reflexivity. Qed.

(** * Beyond one action at a time *)

(** ** Helpers, one by one *)

(** A helper that runs to its end appends at most one turn, an assistant
    turn; only an answered question helper writes the count, to one more
    than the count of its own render. *)
Lemma resume_cases world k s s' :
  next (resume world k s) = Some s' ->
  pageInfo s' = pageInfo s /\
  input s' = input s /\
  ((messages s' = messages s /\ questionCount s' = questionCount s)
   \/ exists reply,
        messages s' = messages s ++ [{| role := assistant; content := reply |}] /\
        (questionCount s' = questionCount s
         \/ exists params n, k = generateQuestion_await params n /\
                             questionCount s' = n + 1)).
Proof.
  destruct k as [email|params|params n]; cbn [resume].
  - unfold composioSignIn_resume.
    destruct (authorize world email "google") as [connection|]; cbn [next];
      intros H; injection H as <-; repeat split; auto.
    right. eexists. split; [reflexivity|]. left. reflexivity.
  - unfold generateInsights_resume.
    destruct (create world params) as [response|]; cbn [next].
    + destruct (reply_text response) as [t|]; [|discriminate].
      intros H; injection H as <-; repeat split; auto.
      right. eexists. split; [reflexivity|]. left. reflexivity.
    + intros H; injection H as <-; repeat split; auto.
  - unfold generateQuestion_resume.
    destruct (create world params) as [response|]; cbn [next].
    + destruct (reply_text response) as [t|]; [|discriminate].
      intros H; injection H as <-; repeat split; auto.
      right. eexists. split; [reflexivity|]. right. exists params, n. split; reflexivity.
    + intros H; injection H as <-; repeat split; auto.
      right. eexists. split; [reflexivity|]. left. reflexivity.
Qed.

Lemma userTexts_app l1 l2 : userTexts (l1 ++ l2) = userTexts l1 ++ userTexts l2.
Proof. unfold userTexts. now rewrite filter_app, map_app. Qed.

Lemma assistantTurns_app l1 l2 :
  assistantTurns (l1 ++ l2) = assistantTurns l1 + assistantTurns l2.
Proof. unfold assistantTurns. now rewrite filter_app, length_app. Qed.

Lemma handleSend_cases cfg s :
  (JsString.truthy (JsString.trim (input s)) = false /\ handleSend cfg s = (s, None))
  \/ (JsString.truthy (JsString.trim (input s)) = true /\
      exists k, handleSend cfg s =
                  (setInput ""
                     (setMessages
                        (fun prev => prev ++ [{| role := user; content := input s |}]) s),
                   Some k) /\
                (path_of k = signIn <-> length (messages s) = identityPosition cfg) /\
                (forall params n, k = generateQuestion_await params n ->
                                  n = questionCount s /\ n < questionLimit cfg) /\
                (forall email, k = composioSignIn_await email ->
                               email = JsString.trim (input s))).
Proof.
  unfold handleSend.
  destruct (JsString.truthy (JsString.trim (input s))); [right|left; split; reflexivity].
  split; [reflexivity|]. cbn [negb].
  destruct (Nat.eqb (length (messages s)) (identityPosition cfg)) eqn:E.
  - eexists. split; [reflexivity|]. apply Nat.eqb_eq in E. split; [|split].
    + split; [intros _; exact E|reflexivity].
    + intros params n H. discriminate H.
    + intros email H. injection H as <-. reflexivity.
  - apply Nat.eqb_neq in E.
    destruct (Nat.ltb (questionCount s) (questionLimit cfg)) eqn:L.
    + eexists. split; [reflexivity|]. apply Nat.ltb_lt in L. split; [|split].
      * split; [discriminate|intros F; contradiction].
      * intros params n H. injection H as _ <-. split; [reflexivity|exact L].
      * intros email H. discriminate H.
    + eexists. split; [reflexivity|]. split; [|split].
      * split; [discriminate|intros F; contradiction].
      * intros params n H. discriminate H.
      * intros email H. discriminate H.
Qed.

Lemma remove_nth_In {A : Type} (x : A) i l : In x (remove_nth i l) -> In x l.
Proof.
  revert i. induction l as [|y l IH]; intros i; [destruct i; simpl; auto|].
  destruct i as [|i]; simpl; [auto|].
  intros [H|H]; [auto|right; eauto].
Qed.

(** ** Invariants of a session *)

Lemma helper_sound_grows cfg s s' k :
  assistantTurns (messages s) <= assistantTurns (messages s') ->
  helper_sound cfg s k -> helper_sound cfg s' k.
Proof. destruct k; simpl; intros; intuition lia. Qed.

Lemma waiting_sound_grows cfg s s' l :
  assistantTurns (messages s) <= assistantTurns (messages s') ->
  Forall (helper_sound cfg s) l -> Forall (helper_sound cfg s') l.
Proof.
  intros Hle H. apply Forall_forall. intros k Hk.
  apply (helper_sound_grows cfg s s' k Hle).
  exact (proj1 (Forall_forall _ _) H k Hk).
Qed.

Lemma opening_sound cfg : sound cfg opening.
Proof.
  unfold sound, opening; simpl. repeat split; try lia; try discriminate.
  constructor.
Qed.

Ltac sound_parts := split; [|split; [|split]].

Lemma assistantTurns_user l t :
  assistantTurns (l ++ [{| role := user; content := t |}]) = assistantTurns l.
Proof. rewrite assistantTurns_app. unfold assistantTurns at 2. simpl. lia. Qed.

Lemma act_sound cfg a ss ss' :
  sound cfg ss -> act cfg a ss = Some ss' -> sound cfg ss'.
Proof.
  intros Hs. pose proof Hs as (Hlim & Hturns & Hpage & Hwait).
  destruct a as [text|i world|response]; cbn [act].
  - set (s0 := handleInputChange text (state ss)).
    destruct (handleSend_cases cfg s0) as [[_ Heq]|[Hb (k & Heq & _ & Hq & He)]];
      rewrite Heq; intros H; injection H as <-; unfold sound; cbn [state waiting].
    + rewrite app_nil_r. sound_parts; assumption.
    + cbn [setInput setMessages messages questionCount pageInfo].
      change (messages s0) with (messages (state ss)).
      change (questionCount s0) with (questionCount (state ss)).
      change (pageInfo s0) with (pageInfo (state ss)).
      sound_parts; [exact Hlim|rewrite assistantTurns_user; exact Hturns|exact Hpage|].
      apply Forall_app. split.
      * apply (waiting_sound_grows cfg (state ss)); [|exact Hwait].
        cbn [setInput setMessages messages]. rewrite assistantTurns_user.
        change (messages s0) with (messages (state ss)). lia.
      * constructor; [|constructor].
        destruct k as [email|params|params n];
          cbn [helper_sound setInput setMessages messages];
          try rewrite assistantTurns_user;
          change (messages s0) with (messages (state ss)).
        -- rewrite (He email eq_refl). intros F.
           change (input s0) with text in Hb, F. rewrite F in Hb. discriminate Hb.
        -- exact I.
        -- destruct (Hq params n eq_refl) as [-> L].
           change (questionCount s0) with (questionCount (state ss)) in *. lia.
  - destruct (nth_error (waiting ss) i) as [k|] eqn:Hk;
      [|intros H; injection H as <-; exact Hs].
    destruct (next (resume world k (state ss))) as [s'|] eqn:Hn; [|discriminate].
    intros H; injection H as <-.
    apply nth_error_In in Hk.
    assert (Hks : helper_sound cfg (state ss) k).
    { exact (proj1 (Forall_forall _ _) Hwait k Hk). }
    destruct (resume_cases _ _ _ _ Hn) as (Hp & _ & Hcase).
    assert (Hrest : Forall (helper_sound cfg (state ss)) (remove_nth i (waiting ss))).
    { apply Forall_forall. intros k' Hk'. apply remove_nth_In in Hk'.
      exact (proj1 (Forall_forall _ _) Hwait k' Hk'). }
    unfold sound; cbn [state waiting]. rewrite Hp.
    destruct Hcase as [[Hm Hq]|(reply & Hm & Hq)].
    + rewrite Hm, Hq. sound_parts; try assumption.
      apply (waiting_sound_grows cfg (state ss)); [rewrite Hm; lia|exact Hrest].
    + assert (Hone : assistantTurns (messages s') =
                     assistantTurns (messages (state ss)) + 1).
      { rewrite Hm, assistantTurns_app. reflexivity. }
      sound_parts.
      * destruct Hq as [Hq|(params & n & Ek & Hq)]; rewrite Hq; [exact Hlim|].
        rewrite Ek in Hks. cbn [helper_sound] in Hks. lia.
      * destruct Hq as [Hq|(params & n & Ek & Hq)]; rewrite Hq; [lia|].
        rewrite Ek in Hks. cbn [helper_sound] in Hks. lia.
      * exact Hpage.
      * apply (waiting_sound_grows cfg (state ss)); [lia|exact Hrest].
  - intros H; injection H as <-. unfold sound; cbn [state waiting].
    unfold getPageInfo. destruct response as [r|]; [|exact Hs].
    destruct (JsString.truthy (title r) && JsString.truthy (url r)) eqn:Hr;
      [|exact Hs].
    cbn [setMessages setPageInfo messages questionCount pageInfo].
    rewrite assistantTurns_app.
    sound_parts; [exact Hlim|lia| |].
    + intros p Hp. injection Hp as <-. apply andb_true_iff in Hr. exact Hr.
    + apply (waiting_sound_grows cfg (state ss)); [|exact Hwait].
      cbn [setMessages setPageInfo messages]. rewrite assistantTurns_app. lia.
Qed.

Lemma play_sound cfg actions : forall ss ss',
  sound cfg ss -> play cfg actions ss = Some ss' -> sound cfg ss'.
Proof.
  induction actions as [|a rest IH]; intros ss ss' Hs; cbn [play].
  - intros H; injection H as <-. exact Hs.
  - destruct (act cfg a ss) as [ss1|] eqn:Ha; [|discriminate].
    apply IH. exact (act_sound _ _ _ _ Hs Ha).
Qed.

Lemma act_messages cfg a ss ss' :
  act cfg a ss = Some ss' ->
  exists added,
    messages (state ss') = messages (state ss) ++ added /\
    userTexts added = submitted [a].
Proof.
  destruct a as [text|i world|response]; cbn [act submitted].
  - set (s0 := handleInputChange text (state ss)).
    destruct (handleSend_cases cfg s0) as [[Hb Heq]|[Hb (k & Heq & _)]];
      rewrite Heq; intros H; injection H as <-; cbn [state];
      change (input s0) with text in Hb; rewrite Hb.
    + exists []. rewrite app_nil_r. split; reflexivity.
    + eexists. split; reflexivity.
  - destruct (nth_error (waiting ss) i) as [k|];
      [|intros H; injection H as <-; exists []; rewrite app_nil_r; split; reflexivity].
    destruct (next (resume world k (state ss))) as [s'|] eqn:Hn; [|discriminate].
    intros H; injection H as <-. cbn [state].
    destruct (resume_cases _ _ _ _ Hn) as (_ & _ & [[Hm _]|(reply & Hm & _)]).
    + exists []. rewrite app_nil_r. split; [exact Hm|reflexivity].
    + eexists. split; [exact Hm|reflexivity].
  - intros H; injection H as <-. cbn [state]. unfold getPageInfo.
    destruct response as [r|]; [|exists []; rewrite app_nil_r; split; reflexivity].
    destruct (JsString.truthy (title r) && JsString.truthy (url r));
      [|exists []; rewrite app_nil_r; split; reflexivity].
    eexists. split; reflexivity.
Qed.

Lemma submitted_cons a rest : submitted (a :: rest) = submitted [a] ++ submitted rest.
Proof.
  destruct a as [text|i world|response]; cbn [submitted]; try reflexivity.
  now destruct (JsString.truthy (JsString.trim text)).
Qed.

Lemma play_messages cfg actions : forall ss ss',
  play cfg actions ss = Some ss' ->
  exists added,
    messages (state ss') = messages (state ss) ++ added /\
    userTexts added = submitted actions.
Proof.
  induction actions as [|a rest IH]; intros ss ss'; cbn [play].
  - intros H; injection H as <-. exists []. rewrite app_nil_r. split; reflexivity.
  - destruct (act cfg a ss) as [ss1|] eqn:Ha; [|discriminate].
    intros Hp. destruct (act_messages _ _ _ _ Ha) as (a1 & Hm1 & Hu1).
    destruct (IH _ _ Hp) as (a2 & Hm2 & Hu2).
    exists (a1 ++ a2). split.
    + now rewrite Hm2, Hm1, app_assoc.
    + now rewrite userTexts_app, Hu1, Hu2, <- submitted_cons.
Qed.

(** ** Properties of sessions, whatever the interleaving *)

(** X1. In any session, helpers overlapping or not, [questionCount] never
    goes above the limit. *)
Theorem count_never_exceeds_limit cfg actions ss :
  play cfg actions opening = Some ss ->
  questionCount (state ss) <= questionLimit cfg.
Proof.
  intros H. apply (play_sound cfg actions opening ss (opening_sound cfg) H).
Qed.

Lemma count_never_exceeds_limit_witness :
  exists ss,
    play part_000 [Send "vegetarian"; Send "thai food";
                   Settle 1 services_up; Settle 0 services_up] opening = Some ss /\
    questionCount (state ss) <= 5.
Proof.
  eexists. split; [reflexivity|].
  apply (count_never_exceeds_limit part_000
           [Send "vegetarian"; Send "thai food";
            Settle 1 services_up; Settle 0 services_up]).
  reflexivity.
Defined.

(** X2. In any session [questionCount] is at most the number of assistant
    turns in the transcript. *)
Theorem count_at_most_assistant_turns cfg actions ss :
  play cfg actions opening = Some ss ->
  questionCount (state ss) <= assistantTurns (messages (state ss)).
Proof.
  intros H. apply (play_sound cfg actions opening ss (opening_sound cfg) H).
Qed.

Lemma count_at_most_assistant_turns_witness :
  exists ss,
    play part_001 [Send "alice@example.com"; Send "vegetarian";
                   Settle 1 services_up; Settle 0 services_down] opening = Some ss /\
    questionCount (state ss) <= assistantTurns (messages (state ss)).
Proof.
  eexists. split; [reflexivity|].
  apply (count_at_most_assistant_turns part_001
           [Send "alice@example.com"; Send "vegetarian";
            Settle 1 services_up; Settle 0 services_down]).
  reflexivity.
Defined.

(** X3. The page information, once stored, has a title and an address that
    are not empty. *)
Theorem stored_page_info_is_complete cfg actions ss p :
  play cfg actions opening = Some ss ->
  pageInfo (state ss) = Some p ->
  title p <> ""%string /\ url p <> ""%string.
Proof.
  intros H Hp.
  destruct (play_sound cfg actions opening ss (opening_sound cfg) H)
    as (_ & _ & Hpage & _).
  destruct (Hpage p Hp) as [Ht Hu].
  split; intros E; [rewrite E in Ht|rewrite E in Hu]; discriminate.
Qed.

Lemma stored_page_info_is_complete_witness :
  exists ss p,
    play part_001 [Page (Some {| title := ""; url := "https://www.opentable.com/" |});
                   Page (Some {| title := "OpenTable"; url := "https://www.opentable.com/" |});
                   Send "vegetarian"] opening = Some ss /\
    pageInfo (state ss) = Some p /\ title p <> ""%string.
Proof.
  eexists. eexists. split; [reflexivity|]. split; [reflexivity|].
  apply (stored_page_info_is_complete part_001
           [Page (Some {| title := ""; url := "https://www.opentable.com/" |});
            Page (Some {| title := "OpenTable"; url := "https://www.opentable.com/" |});
            Send "vegetarian"]
           _ _ eq_refl eq_refl).
Defined.

(** X4. The user turns of the transcript are the submitted texts that are
    not blank, as typed and in the order they were sent, whatever the
    services answer and in whatever order the answers come. *)
Theorem user_turns_are_submitted_texts cfg actions ss ss' :
  play cfg actions ss = Some ss' ->
  userTexts (messages (state ss')) =
    userTexts (messages (state ss)) ++ submitted actions.
Proof.
  intros H. destruct (play_messages cfg actions ss ss' H) as (added & Hm & Hu).
  now rewrite Hm, userTexts_app, Hu.
Qed.

Lemma user_turns_are_submitted_texts_witness :
  exists ss,
    play part_001 [Send " alice@example.com"; Send "   "; Send "vegetarian";
                   Settle 1 services_down; Settle 0 services_up] opening = Some ss /\
    userTexts (messages (state ss)) = [" alice@example.com"; "vegetarian"].
Proof.
  eexists. split; [reflexivity|].
  apply (user_turns_are_submitted_texts part_001
           [Send " alice@example.com"; Send "   "; Send "vegetarian";
            Settle 1 services_down; Settle 0 services_up] opening).
  reflexivity.
Defined.

(** X5. No action removes, reorders or rewrites a turn: the transcript
    after any actions starts with the transcript before them. Hence the
    greeting, once replaced by a turn, is never shown again. *)
Theorem transcript_is_append_only cfg actions ss ss' :
  play cfg actions ss = Some ss' ->
  (exists added, messages (state ss') = messages (state ss) ++ added) /\
  (greetingShown (state ss) = false -> greetingShown (state ss') = false).
Proof.
  intros H. destruct (play_messages cfg actions ss ss' H) as (added & Hm & _).
  split; [now exists added|].
  unfold greetingShown. rewrite Hm, length_app.
  rewrite !Nat.eqb_neq. lia.
Qed.

Lemma transcript_is_append_only_witness :
  exists ss added,
    play part_001 [Send "alice@example.com"; Settle 0 services_down;
                   Send "vegetarian"; Settle 0 services_up] opening = Some ss /\
    messages (state ss) = [] ++ added.
Proof.
  eexists. 
  destruct (transcript_is_append_only part_001
              [Send "alice@example.com"; Settle 0 services_down;
               Send "vegetarian"; Settle 0 services_up] opening _ eq_refl)
    as [[added Hm] _].
  exists added. split; [reflexivity|exact Hm].
Defined.

Lemma act_length cfg a ss ss' :
  act cfg a ss = Some ss' ->
  length (messages (state ss)) <= length (messages (state ss')).
Proof.
  intros H. destruct (act_messages _ _ _ _ H) as (added & Hm & _).
  rewrite Hm, length_app. lia.
Qed.

Lemma dispatched_cases cfg s :
  (JsString.truthy (JsString.trim (input s)) = false /\ dispatched cfg s = None)
  \/ (JsString.truthy (JsString.trim (input s)) = true /\
      exists p, dispatched cfg s = Some p /\
                (p = signIn <-> length (messages s) = identityPosition cfg)).
Proof.
  unfold dispatched.
  destruct (handleSend_cases cfg s) as [[Hb Heq]|[Hb (k & Heq & Hp & _)]]; rewrite Heq.
  - left. split; [exact Hb|reflexivity].
  - right. split; [exact Hb|]. exists (path_of k). split; [reflexivity|exact Hp].
Qed.

Lemma started_past_identity cfg actions : forall ss,
  identityPosition cfg < length (messages (state ss)) ->
  filter is_signIn (started cfg actions ss) = [].
Proof.
  induction actions as [|a rest IH]; intros ss Hpos; cbn [started]; [reflexivity|].
  rewrite filter_app.
  assert (Htail : filter is_signIn
                    match act cfg a ss with
                    | Some ss' => started cfg rest ss'
                    | None => []
                    end = []).
  { destruct (act cfg a ss) as [ss1|] eqn:Ha; [|reflexivity].
    apply IH. pose proof (act_length _ _ _ _ Ha). lia. }
  rewrite Htail, app_nil_r.
  destruct a as [text|i world|response]; try reflexivity.
  destruct (dispatched_cases cfg (handleInputChange text (state ss)))
    as [[_ ->]|[_ (p & -> & Hp)]]; [reflexivity|].
  cbn [filter]. destruct p; try reflexivity.
  change (messages (handleInputChange text (state ss)))
    with (messages (state ss)) in Hp.
  destruct Hp as [Hp _]. specialize (Hp eq_refl). lia.
Qed.

(** X6. In any session at most one submit takes the sign-in path, and none
    does once the transcript is longer than the identity position. *)
Theorem sign_in_at_most_once cfg actions ss :
  length (filter is_signIn (started cfg actions ss)) <= 1 /\
  (identityPosition cfg < length (messages (state ss)) ->
   filter is_signIn (started cfg actions ss) = []).
Proof.
  split; [|apply started_past_identity].
  revert ss. induction actions as [|a rest IH]; intros ss; cbn [started]; [simpl; lia|].
  rewrite filter_app, length_app.
  destruct a as [text|i world|response];
    try (cbn [filter length]; destruct (act cfg _ ss) as [ss1|]; [apply IH|simpl; lia]).
  set (s0 := handleInputChange text (state ss)).
  destruct (dispatched_cases cfg s0) as [[_ ->]|[Hb (p & -> & Hp)]].
  - cbn [filter length]. destruct (act cfg (Send text) ss) as [ss1|]; [apply IH|simpl; lia].
  - destruct (act cfg (Send text) ss) as [ss1|] eqn:Ha;
      [|destruct p; simpl; lia].
    destruct p; cbn [filter is_signIn length]; try apply IH.
    destruct Hp as [Hp _]. specialize (Hp eq_refl).
    rewrite (started_past_identity cfg rest ss1); [simpl; lia|].
    cbn [act] in Ha. fold s0 in Ha.
    destruct (handleSend_cases cfg s0) as [[Hb' _]|[_ (k & Heq & _)]];
      [congruence|].
    rewrite Heq in Ha. injection Ha as <-. cbn [state setInput setMessages messages].
    rewrite length_app. cbn [length]. lia.
Qed.

(** ** The submit handler, further *)

(** X7. Whatever the state, [composio.toolkits.authorize] is called with
    the trimmed input, which is not empty, and for the toolkit [google]. *)
Theorem authorize_token_not_empty cfg s email toolkit :
  In (composio_toolkits_authorize email toolkit) (invocations cfg s) ->
  email = JsString.trim (input s) /\ email <> ""%string /\ toolkit = "google"%string.
Proof.
  unfold invocations.
  destruct (handleSend_cases cfg s) as [[_ Heq]|[Hb (k & Heq & _ & _ & He)]];
    rewrite Heq; cbn [snd]; [intros []|].
  intros [H|[]]. destruct k as [e|params|params n]; try discriminate H.
  injection H as <- <-. rewrite (He e eq_refl).
  repeat split. intros E. rewrite E in Hb. discriminate Hb.
Qed.

Lemma authorize_token_not_empty_witness :
  In (composio_toolkits_authorize "alice@example.com" "google")
     (invocations part_001 (handleInputChange " alice@example.com " initial)) /\
  "alice@example.com"%string <> ""%string.
Proof.
  assert (H : In (composio_toolkits_authorize "alice@example.com" "google")
                 (invocations part_001 (handleInputChange " alice@example.com " initial))).
  { left. reflexivity. }
  split; [exact H|].
  apply (authorize_token_not_empty part_001
           (handleInputChange " alice@example.com " initial)
           "alice@example.com" "google" H).
Defined.

(** X8. [handleSend] does nothing exactly when the Send button is disabled,
    that is when the input is blank; otherwise it starts a helper and leaves
    the input empty and the button disabled, so that a second submit with
    nothing typed in between is ignored. *)
Theorem send_button_guards_submit cfg s :
  (sendDisabled s = true <-> JsString.blank (input s)) /\
  (sendDisabled s = true -> handleSend cfg s = (s, None)) /\
  (sendDisabled s = false ->
   snd (handleSend cfg s) <> None /\
   input (fst (handleSend cfg s)) = ""%string /\
   sendDisabled (fst (handleSend cfg s)) = true /\
   handleSend cfg (fst (handleSend cfg s)) = (fst (handleSend cfg s), None)).
Proof.
  unfold sendDisabled. split; [|split].
  - rewrite negb_true_iff. apply TrimFacts.truthy_trim.
  - rewrite negb_true_iff. intros H.
    apply handleSend_blank. apply TrimFacts.truthy_trim. exact H.
  - rewrite negb_false_iff. intros H.
    destruct (handleSend_cases cfg s) as [[Hb _]|[_ (k & Heq & _)]]; [congruence|].
    rewrite Heq. cbn [fst snd]. repeat split; try discriminate.
Qed.

Lemma send_button_guards_submit_witness :
  handleSend part_001 (fst (handleSend part_001 (handleInputChange "vegetarian" initial)))
    = (fst (handleSend part_001 (handleInputChange "vegetarian" initial)), None).
Proof.
  apply (send_button_guards_submit part_001 (handleInputChange "vegetarian" initial)).
  reflexivity.
Defined.

(** ** The summary request and the answers *)

Lemma insights_instruction_categories :
  includes "'dietary': {" insights_instruction /\
  includes "'cuisine': {" insights_instruction /\
  includes "'budget': {" insights_instruction /\
  includes "'location': {" insights_instruction /\
  includes "'timing': {" insights_instruction /\
  includes "only output the JSON" insights_instruction.
Proof.
  repeat split; apply includesb_sound; vm_compute; reflexivity.
Qed.

(** X9. The summary request holds, between its system turn and its
    instruction, the transcript of the render in which the handler was
    created, without the turn being submitted; the instruction names the
    five categories and asks for the JSON only. *)
Theorem summary_request_contents cfg s :
  ~ JsString.blank (input s) ->
  length (messages s) <> identityPosition cfg ->
  questionLimit cfg <= questionCount s ->
  exists params,
    invocations cfg s = [anthropic_messages_create params] /\
    model params = "claude-3-haiku-20240307"%string /\
    max_tokens params = 256 /\
    params_messages params =
      {| role := assistant; content := insights_system |}
      :: messages s ++ [{| role := user; content := insights_instruction |}] /\
    messages (fst (handleSend cfg s)) =
      messages s ++ [{| role := user; content := input s |}] /\
    includes "'dietary': {" insights_instruction /\
    includes "'cuisine': {" insights_instruction /\
    includes "'budget': {" insights_instruction /\
    includes "'location': {" insights_instruction /\
    includes "'timing': {" insights_instruction /\
    includes "only output the JSON" insights_instruction.
Proof.
  intros H0 E L. exists (insights_params s).
  split; [|split; [|split; [|split; [|split]]]].
  - unfold invocations. now rewrite (dispatched_insights cfg s H0 E L).
  - reflexivity.
  - reflexivity.
  - reflexivity.
  - exact (handleSend_messages cfg s H0).
  - exact insights_instruction_categories.
Qed.

Lemma summary_request_contents_witness :
  exists params,
    invocations part_001
      (handleInputChange "downtown"
         {| messages := [{| role := user; content := "alice@example.com" |}];
            input := ""; questionCount := 2; pageInfo := None |})
      = [anthropic_messages_create params] /\
    params_messages params =
      [{| role := assistant; content := insights_system |};
       {| role := user; content := "alice@example.com" |};
       {| role := user; content := insights_instruction |}].
Proof.
  destruct (summary_request_contents part_001
              (handleInputChange "downtown"
                 {| messages := [{| role := user; content := "alice@example.com" |}];
                    input := ""; questionCount := 2; pageInfo := None |}))
    as (params & Hi & _ & _ & Hp & _).
  - exact not_blank_downtown.
  - simpl. discriminate.
  - simpl. lia.
  - exists params. split; [exact Hi|exact Hp].
Defined.

(** X10. When the first block of a response is of type text, its text is
    the turn appended, as it is; the blocks after the first play no part.
    The question helper then sets the count to one more than the count of
    its render; the summary helper leaves the count alone. *)
Theorem text_block_is_surfaced n response block rest s :
  response_content response = block :: rest ->
  type block = "text"%string ->
  (exists s',
     next (generateQuestion_resume n (Fulfilled response) s) = Some s' /\
     messages s' = messages s ++ [{| role := assistant; content := text block |}] /\
     questionCount s' = n + 1)
  /\
  (exists s',
     next (generateInsights_resume (Fulfilled response) s) = Some s' /\
     messages s' = messages s ++ [{| role := assistant; content := text block |}] /\
     questionCount s' = questionCount s).
Proof.
  intros Hc Ht. apply String.eqb_eq in Ht.
  split; eexists; cbn [generateQuestion_resume generateInsights_resume next];
    rewrite (reply_text_first _ _ _ Hc), Ht; repeat split.
Qed.

Lemma text_block_is_surfaced_witness :
  exists s',
    next (generateQuestion_resume 1
            (Fulfilled {| response_content :=
                            [{| type := "text"; text := "Response received" |};
                             {| type := "tool_use"; text := "" |}] |}) initial) = Some s' /\
    messages s' = [{| role := assistant; content := "Response received" |}] /\
    questionCount s' = 2.
Proof.
  destruct (text_block_is_surfaced 1
              {| response_content :=
                   [{| type := "text"; text := "Response received" |};
                    {| type := "tool_use"; text := "" |}] |}
              {| type := "text"; text := "Response received" |}
              [{| type := "tool_use"; text := "" |}] initial) as [H _].
  - reflexivity.
  - reflexivity.
  - exact H.
Defined.



(** ** One action at a time, as a special case *)

Lemma submit_is_send_settle cfg world text s :
  play cfg [Send text; Settle 0 world] {| state := s; waiting := [] |} =
    match next (submit cfg world text s) with
    | Some s' => Some {| state := s'; waiting := [] |}
    | None => None
    end.
Proof.
  rewrite submit_unfold. cbn [play act state waiting].
  destruct (handleSend cfg (handleInputChange text s)) as [s1 [k|]];
    cbn [started_by app fst snd state waiting nth_error next].
  - destruct (next (resume world k s1)); reflexivity.
  - reflexivity.
Qed.

Lemma play_app cfg l1 : forall l2 ss,
  play cfg (l1 ++ l2) ss =
    match play cfg l1 ss with
    | Some ss' => play cfg l2 ss'
    | None => None
    end.
Proof.
  induction l1 as [|a l1 IH]; intros l2 ss; cbn [app play]; [reflexivity|].
  destruct (act cfg a ss); [apply IH|reflexivity].
Qed.

(** A session run with one action outstanding at a time is the session in
    which every submit is sent and its helper settled at once: both end in
    the same state, or both are torn down. *)
Lemma run_is_play cfg events : forall s,
  play cfg (sequenced events) {| state := s; waiting := [] |} =
    match run cfg events s with
    | Some s' => Some {| state := s'; waiting := [] |}
    | None => None
    end.
Proof.
  induction events as [|e rest IH]; intros s; [reflexivity|].
  destruct e as [text world|response]; cbn [sequenced run step].
  - change (Send text :: Settle 0 world :: sequenced rest)
      with ([Send text; Settle 0 world] ++ sequenced rest).
    rewrite play_app, submit_is_send_settle.
    destruct (next (submit cfg world text s)) as [s'|]; [apply IH|reflexivity].
  - cbn [play act state waiting]. apply IH.
Qed.

(** ** Two questions in flight *)

(** Two submits on the question path, the second made before the first is
    answered: both helpers wait, each with the count of its own render. *)
Lemma two_questions_in_flight cfg t1 t2 s :
  ~ JsString.blank t1 ->
  ~ JsString.blank t2 ->
  length (messages s) <> identityPosition cfg ->
  length (messages s) + 1 <> identityPosition cfg ->
  questionCount s < questionLimit cfg ->
  exists s2,
    play cfg [Send t1; Send t2] {| state := s; waiting := [] |} =
      Some {| state := s2;
              waiting :=
                [generateQuestion_await (question_params s) (questionCount s);
                 generateQuestion_await
                   (question_params (fst (handleSend cfg (handleInputChange t1 s))))
                   (questionCount s)] |} /\
    messages s2 = messages s ++ [{| role := user; content := t1 |};
                                 {| role := user; content := t2 |}] /\
    questionCount s2 = questionCount s.
Proof.
  intros H1 H2 E E1 L.
  set (s0 := handleInputChange t1 s) in *.
  assert (H0 : ~ JsString.blank (input s0)) by exact H1.
  pose proof (handleSend_text cfg s0 H0) as Hs0.
  pose proof (dispatched_question cfg s0 H0 E L) as Hk0.
  destruct (handleSend cfg s0) as [s1 k1] eqn:Hh0.
  cbn [snd] in Hk0. subst k1. injection Hs0 as Hs1 _.
  set (s1' := handleInputChange t2 s1).
  assert (H1' : ~ JsString.blank (input s1')) by exact H2.
  assert (Hm1 : messages s1 = messages s ++ [{| role := user; content := t1 |}]).
  { rewrite Hs1. reflexivity. }
  assert (Hq1 : questionCount s1 = questionCount s) by (rewrite Hs1; reflexivity).
  assert (E' : length (messages s1') <> identityPosition cfg).
  { change (messages s1') with (messages s1). rewrite Hm1, length_app. cbn [length]. lia. }
  assert (L' : questionCount s1' < questionLimit cfg).
  { change (questionCount s1') with (questionCount s1). lia. }
  pose proof (handleSend_text cfg s1' H1') as Hs2.
  pose proof (dispatched_question cfg s1' H1' E' L') as Hk2.
  destruct (handleSend cfg s1') as [s2 k2] eqn:Hh2.
  cbn [snd] in Hk2. subst k2. injection Hs2 as Hs2 _.
  exists s2. split; [|split].
  - cbn [play act state waiting]. fold s0. rewrite Hh0.
    cbn [state waiting started_by app]. fold s1'. rewrite Hh2.
    cbn [state waiting started_by app fst].
    change (question_params s0) with (question_params s).
    change (questionCount s0) with (questionCount s).
    change (question_params s1') with (question_params s1).
    change (questionCount s1') with (questionCount s1).
    rewrite Hq1. reflexivity.
  - rewrite Hs2. cbn [setInput setMessages messages].
    change (messages s1') with (messages s1). change (input s1') with t2.
    rewrite Hm1, <- app_assoc. reflexivity.
  - rewrite Hs2. cbn [setInput setMessages questionCount].
    change (questionCount s1') with (questionCount s1). exact Hq1.
Qed.

(** X12. Two submits on the question path, the second made before the
    first is answered: once both are answered, in either order, the
    transcript has both user turns and two more assistant turns, and the
    count is one, not two, above what it was. *)
Theorem overlapping_questions_count_one cfg w1 w2 t1 t2 s r1 r2 :
  ~ JsString.blank t1 ->
  ~ JsString.blank t2 ->
  length (messages s) <> identityPosition cfg ->
  length (messages s) + 1 <> identityPosition cfg ->
  questionCount s < questionLimit cfg ->
  create w1 (question_params s) = Fulfilled r1 ->
  create w2 (question_params (fst (handleSend cfg (handleInputChange t1 s))))
    = Fulfilled r2 ->
  response_content r1 <> [] ->
  response_content r2 <> [] ->
  forall answers,
    answers = [Settle 0 w1; Settle 0 w2] \/ answers = [Settle 1 w2; Settle 0 w1] ->
    exists ss,
      play cfg ([Send t1; Send t2] ++ answers) {| state := s; waiting := [] |} = Some ss /\
      waiting ss = [] /\
      questionCount (state ss) = questionCount s + 1 /\
      assistantTurns (messages (state ss)) = assistantTurns (messages s) + 2 /\
      userTexts (messages (state ss)) = userTexts (messages s) ++ [t1; t2].
Proof.
  intros H1 H2 E E1 L Hr1 Hr2 Hc1 Hc2 answers Horder.
  destruct (two_questions_in_flight cfg t1 t2 s H1 H2 E E1 L) as (s2 & Hp & Hm2 & Hq2).
  destruct (response_content r1) as [|b1 rest1] eqn:Hb1; [contradiction|].
  destruct (response_content r2) as [|b2 rest2] eqn:Hb2; [contradiction|].
  rewrite play_app, Hp.
  assert (Hturns : forall x y,
            assistantTurns ((messages s2 ++ [{| role := assistant; content := x |}])
                            ++ [{| role := assistant; content := y |}])
            = assistantTurns (messages s) + 2).
  { intros x y. rewrite Hm2, !assistantTurns_app.
    unfold assistantTurns at 2 3 4. simpl. lia. }
  assert (Husers : forall x y,
            userTexts ((messages s2 ++ [{| role := assistant; content := x |}])
                       ++ [{| role := assistant; content := y |}])
            = userTexts (messages s) ++ [t1; t2]).
  { intros x y. rewrite Hm2, !userTexts_app.
    unfold userTexts at 2 3 4. simpl. now rewrite !app_nil_r. }
  destruct Horder as [-> | ->];
    cbn [play act state waiting nth_error resume remove_nth].
  - rewrite Hr1. unfold generateQuestion_resume at 1. cbn [next].
    rewrite (reply_text_first _ _ _ Hb1).
    cbn [state waiting nth_error resume remove_nth].
    rewrite Hr2. unfold generateQuestion_resume. cbn [next].
    rewrite (reply_text_first _ _ _ Hb2).
    eexists. split; [reflexivity|].
    cbn [state waiting setQuestionCount setMessages messages questionCount].
    split; [reflexivity|]. split; [reflexivity|]. split; [apply Hturns|apply Husers].
  - rewrite Hr2. unfold generateQuestion_resume at 1. cbn [next].
    rewrite (reply_text_first _ _ _ Hb2).
    cbn [state waiting nth_error resume remove_nth].
    rewrite Hr1. unfold generateQuestion_resume. cbn [next].
    rewrite (reply_text_first _ _ _ Hb1).
    eexists. split; [reflexivity|].
    cbn [state waiting setQuestionCount setMessages messages questionCount].
    split; [reflexivity|]. split; [reflexivity|]. split; [apply Hturns|apply Husers].
Qed.

Lemma overlapping_questions_count_one_witness :
  (exists ss,
     play part_000 [Send "vegetarian"; Send "thai food";
                    Settle 0 services_up; Settle 0 services_up]
          {| state := initial; waiting := [] |} = Some ss /\
     questionCount (state ss) = 1 /\
     assistantTurns (messages (state ss)) = 2) /\
  (exists ss,
     play part_000 [Send "vegetarian"; Send "thai food";
                    Settle 1 services_up; Settle 0 services_up]
          {| state := initial; waiting := [] |} = Some ss /\
     questionCount (state ss) = 1 /\
     assistantTurns (messages (state ss)) = 2).
Proof.
  assert (H : forall answers,
            answers = [Settle 0 services_up; Settle 0 services_up]
            \/ answers = [Settle 1 services_up; Settle 0 services_up] ->
            exists ss,
              play part_000 ([Send "vegetarian"; Send "thai food"] ++ answers)
                   {| state := initial; waiting := [] |} = Some ss /\
              waiting ss = [] /\
              questionCount (state ss) = questionCount initial + 1 /\
              assistantTurns (messages (state ss)) = assistantTurns (messages initial) + 2 /\
              userTexts (messages (state ss)) =
                userTexts (messages initial) ++ ["vegetarian"; "thai food"]%string).
  { apply (overlapping_questions_count_one part_000 services_up services_up
             "vegetarian" "thai food" initial
             (text_response "Do you prefer spicy food?")
             (text_response "Do you prefer spicy food?")).
    - intros B. apply TrimFacts.trim_empty_iff in B. discriminate B.
    - intros B. apply TrimFacts.trim_empty_iff in B. discriminate B.
    - simpl. discriminate.
    - simpl. discriminate.
    - simpl. lia.
    - reflexivity.
    - reflexivity.
    - discriminate.
    - discriminate. }
  split.
  - destruct (H _ (or_introl eq_refl)) as (ss & Hp & _ & Hq & Ha & _).
    exists ss. split; [exact Hp|]. split; [exact Hq|exact Ha].
  - destruct (H _ (or_intror eq_refl)) as (ss & Hp & _ & Hq & Ha & _).
    exists ss. split; [exact Hp|]. split; [exact Hq|exact Ha].
Defined.

(** ** The page information, from the background script to the panel *)

(** X13. The listener answers the action [getPageInfo] only, and only when
    there is an active tab. When the panel mounts, the transcript gains the
    turn naming the page, and the page information is stored, exactly when
    the first active tab has a title and an address that are not empty;
    otherwise the state stays as it is. *)
Theorem mount_names_the_page tabs s :
  (forall action, action <> "getPageInfo"%string ->
                  Background.onMessage action tabs = (None, false)) /\
  (tabs = [] -> Background.onMessage "getPageInfo" tabs = (None, true) /\
                Background.mount tabs s = s) /\
  (forall tab rest, tabs = tab :: rest ->
     (Background.or_empty (Background.tab_title tab) = ""%string
      \/ Background.or_empty (Background.tab_url tab) = ""%string) ->
     Background.mount tabs s = s) /\
  (forall tab rest t u, tabs = tab :: rest ->
     Background.tab_title tab = Some t -> Background.tab_url tab = Some u ->
     t <> ""%string -> u <> ""%string ->
     pageInfo (Background.mount tabs s) = Some {| title := t; url := u |} /\
     messages (Background.mount tabs s) =
       messages s ++ [{| role := assistant; content := "Current page: " ++ t |}] /\
     questionCount (Background.mount tabs s) = questionCount s /\
     input (Background.mount tabs s) = input s).
Proof.
  split; [|split; [|split]].
  - intros action H. unfold Background.onMessage.
    apply String.eqb_neq in H. now rewrite H.
  - intros ->. split; reflexivity.
  - intros tab rest -> H. unfold Background.mount. cbn.
    destruct H as [H|H]; rewrite H; cbn; [reflexivity|].
    now destruct (JsString.truthy (Background.or_empty (Background.tab_title tab))).
  - intros tab rest t u -> Ht Hu Hne1 Hne2.
    unfold Background.mount. cbn. rewrite Ht, Hu. cbn.
    destruct t as [|a t]; [contradiction|]. destruct u as [|b u]; [contradiction|].
    cbn. repeat split.
Qed.

Lemma mount_names_the_page_witness :
  messages (Background.mount
              [{| Background.tab_title := Some "OpenTable"%string;
                  Background.tab_url := Some "https://www.opentable.com/"%string |}]
              initial)
    = [{| role := assistant; content := "Current page: OpenTable" |}] /\
  Background.mount [{| Background.tab_title := Some "OpenTable"%string;
                       Background.tab_url := None |}] initial = initial.
Proof.
  destruct (mount_names_the_page
              [{| Background.tab_title := Some "OpenTable"%string;
                  Background.tab_url := Some "https://www.opentable.com/"%string |}]
              initial) as (_ & _ & _ & H).
  destruct (H _ _ "OpenTable"%string "https://www.opentable.com/"%string
              eq_refl eq_refl eq_refl) as (_ & Hm & _); [discriminate|discriminate|].
  split; [exact Hm|].
  destruct (mount_names_the_page
              [{| Background.tab_title := Some "OpenTable"%string;
                  Background.tab_url := None |}]
              initial) as (_ & _ & H' & _).
  apply (H' _ _ eq_refl). right. reflexivity.
Defined.

(** ** Rejections nobody handles *)

(** X14. The helper started by a submit ends in an unhandled rejection
    exactly when the text is not blank and either the sign-in path was
    taken and [authorize] or the wait for the connection was rejected, or
    the summary path was taken and [create] was rejected. The question
    helper never ends that way. *)
Theorem unhandled_rejections cfg world text s :
  helper (submit cfg world text s) = threw <->
  ~ JsString.blank text /\
  ((length (messages s) = identityPosition cfg /\
    (authorize world (JsString.trim text) "google" = Rejected
     \/ exists connection,
          authorize world (JsString.trim text) "google" = Fulfilled connection /\
          waitForConnection connection = Rejected))
   \/ (length (messages s) <> identityPosition cfg /\
       questionLimit cfg <= questionCount s /\
       create world (insights_params s) = Rejected)).
Proof.
  set (s0 := handleInputChange text s).
  rewrite submit_unfold. fold s0.
  destruct (JsString.truthy (JsString.trim text)) eqn:Hb.
  - assert (H0 : ~ JsString.blank (input s0)).
    { intros B. apply TrimFacts.truthy_trim in B. simpl in B. congruence. }
    rewrite (handleSend_text cfg s0 H0). cbn [snd fst helper].
    change (messages s0) with (messages s).
    change (questionCount s0) with (questionCount s).
    change (input s0) with text.
    destruct (Nat.eqb (length (messages s)) (identityPosition cfg)) eqn:E.
    + apply Nat.eqb_eq in E. cbn [composioSignIn resume]. unfold composioSignIn_resume.
      destruct (authorize world (JsString.trim text) "google") as [connection|];
        cbn [helper].
      * destruct (waitForConnection connection) eqn:Hw; split.
        -- discriminate.
        -- intros (_ & [(_ & [F|(c & Hc & Hr)])|(F & _)]);
             [discriminate| |contradiction].
           injection Hc as <-. congruence.
        -- intros _. split; [exact H0|]. left. split; [exact E|].
           right. exists connection. split; [reflexivity|exact Hw].
        -- reflexivity.
      * split; [|reflexivity]. intros _. split; [exact H0|].
        left. split; [exact E|]. left. reflexivity.
    + apply Nat.eqb_neq in E.
      destruct (Nat.ltb (questionCount s) (questionLimit cfg)) eqn:L.
      * apply Nat.ltb_lt in L. cbn [generateQuestion resume].
        unfold generateQuestion_resume.
        destruct (create world (question_params s0)); cbn [helper]; split;
          try discriminate;
          intros (_ & [(F & _)|(_ & F & _)]); try contradiction; lia.
      * apply Nat.ltb_ge in L. cbn [generateInsights resume].
        unfold generateInsights_resume.
        change (insights_params s0) with (insights_params s).
        destruct (create world (insights_params s)); cbn [helper]; split.
        -- discriminate.
        -- intros (_ & [(F & _)|(_ & _ & F)]); [contradiction|discriminate].
        -- intros _. split; [exact H0|]. right. repeat split; assumption.
        -- reflexivity.
  - assert (B : JsString.blank (input s0)).
    { apply TrimFacts.truthy_trim. exact Hb. }
    rewrite (handleSend_blank cfg s0 B). cbn [snd helper]. split; [discriminate|].
    intros (F & _). contradiction.
Qed.

(** ** The count, with answers that come late or empty *)

(** C4, at a failing input. In the second variant, after the sign-in, two
    questions are submitted before either is answered; the second is
    answered, a third is submitted and answered, and the count is at the
    limit, 2: a submit would now take the summary path. Then the first
    question is answered: its helper writes the count of its own render
    plus one, the count goes down to 1, and the next submit takes the
    question path. *)
Theorem late_answer_lowers_count :
  exists ss1 ss2,
    play part_001 [Send "alice@example.com"; Settle 0 services_up;
                   Send "vegetarian"; Send "thai food"; Settle 1 services_up;
                   Send "downtown"; Settle 1 services_up] opening = Some ss1 /\
    questionCount (state ss1) = 2 /\
    dispatched part_001 (handleInputChange "mild" (state ss1)) = Some insights /\
    play part_001 [Settle 0 services_up] ss1 = Some ss2 /\
    questionCount (state ss2) = 1 /\
    dispatched part_001 (handleInputChange "mild" (state ss2)) = Some question.
Proof.
  eexists. eexists.
  split; [reflexivity|]. split; [reflexivity|]. split; [reflexivity|].
  split; [reflexivity|]. split; reflexivity.
Qed.

(** C5, at failing inputs. In the second variant, after the sign-in: of
    two questions submitted before either is answered, the first answer
    takes the count from 0 to 1 and the second, answered as well, leaves it
    at 1; and a question call fulfilled with a response that has no content
    block appends no turn at all, the panel being torn down by the render
    that follows. *)
Theorem question_count_slips :
  (exists ss1 ss2,
     play part_001 [Send "alice@example.com"; Settle 0 services_up;
                    Send "vegetarian"; Send "thai food";
                    Settle 0 services_up] opening = Some ss1 /\
     questionCount (state ss1) = 1 /\
     map path_of (waiting ss1) = [question] /\
     play part_001 [Settle 0 services_up] ss1 = Some ss2 /\
     assistantTurns (messages (state ss2)) = assistantTurns (messages (state ss1)) + 1 /\
     questionCount (state ss2) = 1)
  /\
  (exists s,
     run part_001 [Submit "alice@example.com" services_up] initial = Some s /\
     dispatched part_001 (handleInputChange "vegetarian" s) = Some question /\
     next (submit part_001 services_silent "vegetarian" s) = None /\
     play part_001 [Send "vegetarian"; Settle 0 services_silent]
          {| state := s; waiting := [] |} = None).
Proof.
  split.
  - eexists. eexists.
    split; [reflexivity|]. split; [reflexivity|]. split; [reflexivity|].
    split; [reflexivity|]. split; reflexivity.
  - eexists. split; [reflexivity|]. split; [reflexivity|]. split; reflexivity.
Qed.
